(** * GY-MCU90640 thermal camera sketches: acquisition, decoding and publishing

    A shallow embedding of the frame pipeline of the Arduino sketches
    [sketch_feb27a.ino] (ESP32, WiFi + WebSocket) and [sketch_feb23a.ino]
    (ESP8266, standalone serial debug), with the properties of the pipeline
    stated and proved over it.

    - bytes are [Byte.byte]; the serial RX buffer is a queue [list byte];
    - [float] and [double] values are [spec_float] (IEEE-754 binary32 and
      binary64 with round-to-nearest-even, as specified in [SpecFloat]);
    - [unsigned long] is a 32-bit [Z] with its wrap-around written out;
    - the global arrays [frame] and [rawData] are lists updated by index;
    - the clock and the sensor are an explicit environment: every call of
      [millis()] consumes one observation, which carries the bytes that
      reached the RX buffer since the previous one. *)

From Stdlib Require Import ZArith Lia Bool.
From Stdlib Require Import Floats.SpecFloat.
From Stdlib Require Import Strings.Byte.
From stdpp Require Import base list.

Open Scope Z_scope.

(** ** Bytes *)

Definition byte_val (b : byte) : Z := Z.of_N (Byte.to_N b).

#[global] Instance byte_inhabited : Inhabited byte := populate x00.
#[global] Instance byte_eq_decision : EqDecision byte := Byte.byte_eq_dec.

(** ** Floating point, as the sketches use it

    [raw / 100.0] promotes the [int16_t] to [double], divides in binary64 and
    the assignment to [float t] rounds to binary32. A comparison of [t] with
    a [double] literal converts [t] back to binary64 (exactly). *)

Module FP.

Definition double_of_int (n : Z) : spec_float :=
  binary_normalize 53 1024 n 0 false.

Definition double_div : spec_float -> spec_float -> spec_float :=
  SFdiv 53 1024.

Definition to_float (x : spec_float) : spec_float :=
  match x with
  | S754_finite s m e => binary_round 24 128 s m e
  | _ => x
  end.

Definition to_double (x : spec_float) : spec_float :=
  match x with
  | S754_finite s m e => binary_round 53 1024 s m e
  | _ => x
  end.

(** [a < b] on doubles; [a > b] is [lt b a]. False when either is NaN. *)
Definition lt (a b : spec_float) : bool := SFltb a b.

Definition zero : spec_float := S754_zero false.

(** The 32 bits of a binary32 value. *)
Definition bits32 (x : spec_float) : Z :=
  match x with
  | S754_zero s => if s then 0x80000000 else 0
  | S754_infinity s => (if s then 0x80000000 else 0) + 0x7F800000
  | S754_nan => 0x7FC00000
  | S754_finite s m e =>
      (if s then 0x80000000 else 0) +
      (if Z.pos m <? 0x800000 then Z.pos m
       else (e + 150) * 0x800000 + (Z.pos m - 0x800000))
  end.

Definition byte_of_Z (z : Z) : byte :=
  default x00 (Byte.of_N (Z.to_N (z mod 256))).

(** The four bytes of a [float] in memory on the (little-endian) targets. *)
Definition float_bytes (x : spec_float) : list byte :=
  let w := bits32 x in
  [ byte_of_Z w; byte_of_Z (Z.shiftr w 8);
    byte_of_Z (Z.shiftr w 16); byte_of_Z (Z.shiftr w 24) ].

Definition finite (x : spec_float) : bool :=
  match x with
  | S754_zero _ | S754_finite _ _ _ => true
  | _ => false
  end.

End FP.

(** ** Wire protocol constants *)

Definition header : list byte := [x5a; x5a; x02; x06].
Definition query_command : list byte := [xa5; x35; x01; xdb].
Definition FRAME_BYTES : nat := 1540.
Definition PIXELS : nat := 768.

Arguments FRAME_BYTES : simpl never.
Arguments PIXELS : simpl never.

(** ** Decoding one sample *)

(** Conversion of an [int] to [int16_t]. *)
Definition to_int16 (v : Z) : Z :=
  let u := v mod 65536 in
  if u <? 32768 then u else u - 65536.

(** [rawData[i]], promoted to [int]. *)
Definition rawData_at (rawData : list byte) (i : nat) : Z :=
  byte_val (rawData !!! i).

(** [int16_t raw = (rawData[hi] << 8) | rawData[lo];] *)
Definition sample16 (rawData : list byte) (lo hi : nat) : Z :=
  to_int16 (Z.lor (Z.shiftl (rawData_at rawData hi) 8) (rawData_at rawData lo)).

(** [float t = raw / 100.0;] *)
Definition celsius (raw : Z) : spec_float :=
  FP.to_float (FP.double_div (FP.double_of_int raw) (FP.double_of_int 100)).

(** [t > -40.0 && t < 300.0] *)
Definition plausible (t : spec_float) : bool :=
  let d := FP.to_double t in
  FP.lt (FP.double_of_int (-40)) d && FP.lt d (FP.double_of_int 300).

(** One pass of the body of the pixel loop, at index [i]. *)
Definition decode_pixel (rawData : list byte) (i : nat)
    (frame : list spec_float) : list spec_float :=
  let raw := sample16 rawData (i * 2)%nat (i * 2 + 1)%nat in
  let t := celsius raw in
  if plausible t then <[i := t]> frame else frame.

(** [for (int i = start; i < start + n; i++) { ... }] *)
Fixpoint decode_loop (n : nat) (i : nat) (rawData : list byte)
    (frame : list spec_float) : list spec_float :=
  match n with
  | O => frame
  | S n' => decode_loop n' (S i) rawData (decode_pixel rawData i frame)
  end.

(** [void decodeFrame()] of the WebSocket sketches: the grid is the only
    thing it writes. *)
Definition decodeFrame (rawData : list byte) (frame : list spec_float)
    : list spec_float :=
  decode_loop PIXELS 0 rawData frame.

(** [float x = n;] for an integer literal. *)
Definition float_of_int (n : Z) : spec_float :=
  binary_normalize 24 128 n 0 false.

(** Running minimum and maximum kept by [decodeAndShow]. *)
Record stats := Stats { minT : spec_float; maxT : spec_float }.

(** Body of the pixel loop of [decodeAndShow]: the same filter and store as
    [decodeFrame], and the min/max update inside the filter. *)
Definition show_pixel (rawData : list byte) (i : nat)
    (acc : list spec_float * stats) : list spec_float * stats :=
  let '(frame, s) := acc in
  let raw := sample16 rawData (i * 2)%nat (i * 2 + 1)%nat in
  let t := celsius raw in
  if plausible t then
    let lo := if FP.lt t (minT s) then t else minT s in
    let hi := if FP.lt (maxT s) t then t else maxT s in
    (<[i := t]> frame, Stats lo hi)
  else acc.

Fixpoint show_loop (n : nat) (i : nat) (rawData : list byte)
    (acc : list spec_float * stats) : list spec_float * stats :=
  match n with
  | O => acc
  | S n' => show_loop n' (S i) rawData (show_pixel rawData i acc)
  end.

(** What [decodeAndShow] computes: the grid, the ambient temperature [ta]
    and the extremes that go into its report line. *)
Record shown := Shown {
  shown_frame : list spec_float;
  shown_ta : spec_float;
  shown_stats : stats }.

(** [void decodeAndShow()] of the standalone sketch. The character map it
    prints afterwards reads [frame] and the extremes only and is left out. *)
Definition decodeAndShow (rawData : list byte) (frame : list spec_float)
    : shown :=
  let '(frame', s) :=
    show_loop PIXELS 0 rawData
      (frame, Stats (float_of_int 100) (float_of_int (-100))) in
  let taRaw := sample16 rawData 1536 1537 in
  let ta := celsius taRaw in
  Shown frame' ta s.

(** The payload of the broadcast: the [sizeof(frame)] bytes of the grid as it
    lies in memory, cell after cell. *)
Definition frame_bytes (frame : list spec_float) : list byte :=
  concat (map FP.float_bytes frame).

(** ** The clock and the serial port *)

(** One observation of [millis()], with the bytes that reached the RX buffer
    since the previous observation. *)
Record tick := Tick { arrived : list byte; now : Z }.

(** [a - b] on [unsigned long] (32 bits). *)
Definition elapsed (a b : Z) : Z := (a - b) mod 2 ^ 32.

(** [Serial.read()]: the oldest buffered byte, or -1 when there is none. *)
Definition serial_read (rx : list byte) : Z * list byte :=
  match rx with
  | [] => (-1, [])
  | b :: rest => (byte_val b, rest)
  end.

(** [read() == 0x5A && read() == 0x5A && read() == 0x02 && read() == 0x06]:
    [&&] stops reading at the first comparison that fails. Returns the value
    of the condition and the buffer left behind. *)
Definition match_header (rx : list byte) : bool * list byte :=
  let '(c0, rx) := serial_read rx in
  if negb (c0 =? 0x5A) then (false, rx) else
  let '(c1, rx) := serial_read rx in
  if negb (c1 =? 0x5A) then (false, rx) else
  let '(c2, rx) := serial_read rx in
  if negb (c2 =? 0x02) then (false, rx) else
  let '(c3, rx) := serial_read rx in
  (c3 =? 0x06, rx).

Inductive sync_result :=
  | Matched (rx : list byte) (rest : list tick)
  | TimedOut (rx : list byte) (at_time : Z) (rest : list tick)
  | Exhausted.

(** [while (millis() - startWait < deadline) { if (available() >= 4) { if
    (<match_header>) { headerFound = true; break; } } }]

    Each test of the loop condition takes the next observation; [Exhausted]
    says the supplied observations ran out before the loop was left. *)
Fixpoint wait_header (deadline startWait : Z) (rx : list byte)
    (ticks : list tick) : sync_result :=
  match ticks with
  | [] => Exhausted
  | t :: rest =>
      let rx := rx ++ arrived t in
      if elapsed (now t) startWait <? deadline then
        if 4 <=? Z.of_nat (length rx) then
          match match_header rx with
          | (true, rx') => Matched rx' rest
          | (false, rx') => wait_header deadline startWait rx' rest
          end
        else wait_header deadline startWait rx rest
      else TimedOut rx (now t) rest
  end.

(** [Stream::readBytes(buffer, n)] belongs to the Arduino core, not to the
    sketches; it is taken by its contract: it hands over the buffered bytes
    followed by those that still arrive before it gives up ([incoming]), at
    most [n] of them, and returns how many it stored. *)
Definition readBytes (n : nat) (rx incoming : list byte)
    : list byte * list byte :=
  let avail := rx ++ incoming in (take n avail, drop n avail).

(** The received bytes overwrite the front of [rawData]. *)
Definition store (got rawData : list byte) : list byte :=
  got ++ drop (length got) rawData.

(** What the sensor and the clock do during one poll cycle. The first
    observation is the one taken by [startWait = millis()]. *)
Record cycle_env := CycleEnv {
  observations : list tick;
  incoming : list byte }.

(** Observable actions, in program order. *)
Inductive event :=
  | SensorDrain (discarded : list byte)
  | SensorWrite (bs : list byte)
  | PrintIncomplete (received : nat)
  | PrintNoResponse
  | PrintStats (ta lo hi : spec_float)
  | PrintWaiting
  | Delay (ms : Z)
  | Broadcast (client : nat) (payload : list byte).

Inductive PollOutcome :=
  | Success
  | HeaderTimeout
  | ShortRead (received : nat)
  | Unfinished.

(** [WebSocketsServer::broadcastBIN] belongs to the WebSockets library: one
    binary message with the payload to every connected client. *)
Definition broadcastBIN (clients : list nat) (payload : list byte)
    : list event :=
  map (fun c => Broadcast c payload) clients.

(** ** The WebSocket sketches

    [sketch_feb27a.ino] (ESP32, sensor on [Serial2]) and the WebSocket part of
    [sketch_feb23a.ino] (ESP8266, sensor on [Serial]) share this code. *)

Module Wifi.

Record state := State {
  frame : list spec_float;
  rawData : list byte;
  lastFetch : Z;
  rx : list byte;
  clients : list nat;
  out : list event }.

Definition with_frame (f : list spec_float) (st : state) : state :=
  State f (rawData st) (lastFetch st) (rx st) (clients st) (out st).
Definition with_rawData (r : list byte) (st : state) : state :=
  State (frame st) r (lastFetch st) (rx st) (clients st) (out st).
Definition with_lastFetch (t : Z) (st : state) : state :=
  State (frame st) (rawData st) t (rx st) (clients st) (out st).
Definition with_rx (r : list byte) (st : state) : state :=
  State (frame st) (rawData st) (lastFetch st) r (clients st) (out st).
Definition with_clients (c : list nat) (st : state) : state :=
  State (frame st) (rawData st) (lastFetch st) (rx st) c (out st).
Definition emit (es : list event) (st : state) : state :=
  State (frame st) (rawData st) (lastFetch st) (rx st) (clients st)
    (out st ++ es).

(** The globals as the C runtime initialises them. *)
Definition boot : state :=
  State (replicate PIXELS FP.zero) (replicate FRAME_BYTES x00) 0 [] [] [].

(** [for(int i=0; i<768; i++) frame[i] = 0.0;] *)
Fixpoint clear_loop (n : nat) (i : nat) (frame : list spec_float)
    : list spec_float :=
  match n with
  | O => frame
  | S n' => clear_loop n' (S i) (<[i := FP.zero]> frame)
  end.

(** [setup()]: after the network is up, the first query and the cleared
    grid. *)
Definition setup (st : state) : state :=
  let st := emit [SensorWrite query_command] st in
  with_frame (clear_loop PIXELS 0 (frame st)) st.

Definition SYNC_DEADLINE : Z := 500.
Definition POLL_INTERVAL : Z := 1000.

(** [void requestSensorData()] *)
Definition requestSensorData (env : cycle_env) (st : state)
    : PollOutcome * state :=
  (* while(Serial2.available() > 0) Serial2.read(); *)
  let st := with_rx [] (emit [SensorDrain (rx st)] st) in
  (* Serial2.write(askData, 4); *)
  let st := emit [SensorWrite query_command] st in
  match observations env with
  | [] => (Unfinished, st)
  | t0 :: ticks =>
      (* unsigned long startWait = millis(); *)
      let startWait := now t0 in
      match wait_header SYNC_DEADLINE startWait (rx st ++ arrived t0) ticks with
      | Exhausted => (Unfinished, st)
      | TimedOut rx' _ _ => (HeaderTimeout, with_rx rx' st)
      | Matched rx' _ =>
          (* int received = Serial2.readBytes(rawData, 1540); *)
          let '(got, rx'') := readBytes FRAME_BYTES rx' (incoming env) in
          let received := length got in
          let st := with_rx rx'' (with_rawData (store got (rawData st)) st) in
          if Nat.eqb received FRAME_BYTES then
            let st := with_frame (decodeFrame (rawData st) (frame st)) st in
            let st :=
              emit (broadcastBIN (clients st) (frame_bytes (frame st))) st in
            (Success, st)
          else
            (ShortRead received, emit [PrintIncomplete received] st)
      end
  end.

(** What one pass of [loop()] sees: the clients connected once
    [webSocket.loop()] has run, the two readings of [millis()], and the
    sensor during the cycle, if one is started. *)
Record loop_env := LoopEnv {
  connected : list nat;
  test_time : Z;
  fetch_time : Z;
  cycle : cycle_env }.

(** [void loop()] *)
Definition loop (env : loop_env) (st : state)
    : option PollOutcome * state :=
  (* server.handleClient(); webSocket.loop(); *)
  let st := with_clients (connected env) st in
  (* if (millis() - lastFetch > 1000) *)
  if POLL_INTERVAL <? elapsed (test_time env) (lastFetch st) then
    (* lastFetch = millis(); *)
    let st := with_lastFetch (fetch_time env) st in
    let '(o, st) := requestSensorData (cycle env) st in
    (Some o, st)
  else (None, st).

End Wifi.

(** ** The standalone sketch

    The active part of [sketch_feb23a.ino]: no network, a report on the debug
    port, one cycle per pass of [loop()]. *)

Module Standalone.

Record state := State {
  frame : list spec_float;
  rawData : list byte;
  rx : list byte;
  out : list event }.

Definition with_frame (f : list spec_float) (st : state) : state :=
  State f (rawData st) (rx st) (out st).
Definition with_rawData (r : list byte) (st : state) : state :=
  State (frame st) r (rx st) (out st).
Definition with_rx (r : list byte) (st : state) : state :=
  State (frame st) (rawData st) r (out st).
Definition emit (es : list event) (st : state) : state :=
  State (frame st) (rawData st) (rx st) (out st ++ es).

Definition boot : state :=
  State (replicate PIXELS FP.zero) (replicate FRAME_BYTES x00) [] [].

(** [setup()]: the query mode command. *)
Definition setup (st : state) : state :=
  emit [SensorWrite query_command] st.

Definition SYNC_DEADLINE : Z := 1000.
Definition POLL_DELAY : Z := 5000.

(** The cycle at the head of [loop()], up to the report. *)
Definition poll (env : cycle_env) (st : state) : PollOutcome * state :=
  (* while(Serial.available() > 0) Serial.read(); *)
  let st := with_rx [] (emit [SensorDrain (rx st)] st) in
  (* Serial.write(askData, 4); *)
  let st := emit [SensorWrite query_command] st in
  match observations env with
  | [] => (Unfinished, st)
  | t0 :: ticks =>
      let startWait := now t0 in
      match wait_header SYNC_DEADLINE startWait (rx st ++ arrived t0) ticks with
      | Exhausted => (Unfinished, st)
      | TimedOut rx' _ _ =>
          (HeaderTimeout, emit [PrintNoResponse] (with_rx rx' st))
      | Matched rx' _ =>
          let '(got, rx'') := readBytes FRAME_BYTES rx' (incoming env) in
          let received := length got in
          let st := with_rx rx'' (with_rawData (store got (rawData st)) st) in
          if Nat.eqb received FRAME_BYTES then
            let r := decodeAndShow (rawData st) (frame st) in
            let st := with_frame (shown_frame r) st in
            let s := shown_stats r in
            (Success, emit [PrintStats (shown_ta r) (minT s) (maxT s)] st)
          else
            (ShortRead received, emit [PrintIncomplete received] st)
      end
  end.

(** [void loop()]: the cycle, then ["Attente 5 secondes..."] and
    [delay(5000)]. A cycle that never leaves its wait never reaches them. *)
Definition loop (env : cycle_env) (st : state) : PollOutcome * state :=
  let '(o, st) := poll env st in
  match o with
  | Unfinished => (o, st)
  | _ => (o, emit [PrintWaiting; Delay POLL_DELAY] st)
  end.

End Standalone.


(** * Vocabulary of the statements *)

(** The signed little-endian reading of a byte pair. *)
Definition int16_le (lo hi : byte) : Z :=
  byte_val lo + 256 * byte_val hi - (if byte_val hi <? 128 then 0 else 65536).

(** The reading of pixel [i]. *)
Definition pixel_raw (rawData : list byte) (i : nat) : Z :=
  sample16 rawData (i * 2)%nat (i * 2 + 1)%nat.

(** Readings strictly between -40.00 and 300.00 degrees, in hundredths. *)
Definition in_range (raw : Z) : bool := (-4000 <? raw) && (raw <? 30000).

(** What the loop body leaves in a cell that held [old]. *)
Definition decode_cell (rawData : list byte) (i : nat) (old : spec_float)
    : spec_float :=
  let t := celsius (pixel_raw rawData i) in
  if plausible t then t else old.

(** Every cell of the grid passes the filter (so it is a finite number
    strictly between -40 and 300, 0.0 included). *)
Definition grid_ok (frame : list spec_float) : Prop :=
  length frame = PIXELS /\ Forall (fun c => plausible c = true) frame.

(** The grid after a series of complete frames, oldest first. *)
Definition decode_all (frames : list (list byte)) (frame : list spec_float)
    : list spec_float :=
  foldl (fun g rawData => decodeFrame rawData g) frame frames.

(** A candidate that fails: the bytes read up to the first one that is not
    what the header wants there, that byte included. *)
Inductive failed_candidate : list byte -> Prop :=
  | fail_first b : b <> x5a -> failed_candidate [b]
  | fail_second b : b <> x5a -> failed_candidate [x5a; b]
  | fail_third b : b <> x02 -> failed_candidate [x5a; x5a; b]
  | fail_fourth b : b <> x06 -> failed_candidate [x5a; x5a; x02; b].

(** An observation taken before the deadline. *)
Definition in_time (deadline startWait : Z) (t : tick) : Prop :=
  elapsed (now t) startWait < deadline.

(** The observation at which the deadline is seen to have passed: the first
    one, at index [k], whose reading is [deadline] or more after
    [startWait]. *)
Definition expires_at (deadline startWait : Z) (ticks : list tick)
    (k : nat) (tk : tick) : Prop :=
  ticks !! k = Some tk /\
  deadline <= elapsed (now tk) startWait /\
  forall j tj, (j < k)%nat -> ticks !! j = Some tj ->
               in_time deadline startWait tj.

(** Bytes among which there is no 5A. *)
Definition quiet (bs : list byte) : Prop := Forall (fun b => b <> x5a) bs.

(** The byte strings written to the sensor, in order. *)
Fixpoint sensor_writes (es : list event) : list (list byte) :=
  match es with
  | [] => []
  | SensorWrite bs :: es => bs :: sensor_writes es
  | _ :: es => sensor_writes es
  end.

(** The state a WebSocket cycle leaves: [lastFetch] and the clients as they
    were, and the drain, the query and [events] added to the output. *)
Definition wifi_after (st : Wifi.state) (frame' : list spec_float)
    (rawData' rx' : list byte) (events : list event) : Wifi.state :=
  Wifi.State frame' rawData' (Wifi.lastFetch st) rx' (Wifi.clients st)
    (Wifi.out st
     ++ SensorDrain (Wifi.rx st) :: SensorWrite query_command :: events).

Definition standalone_after (st : Standalone.state) (frame' : list spec_float)
    (rawData' rx' : list byte) (events : list event) : Standalone.state :=
  Standalone.State frame' rawData' rx'
    (Standalone.out st
     ++ SensorDrain (Standalone.rx st) :: SensorWrite query_command :: events).

(** [Wifi.requestSensorData] with its steps put together: what each way
    through the cycle returns. *)
Definition wifi_cycle_summary (env : cycle_env) (st : Wifi.state)
    : PollOutcome * Wifi.state :=
  let unchanged := wifi_after st (Wifi.frame st) (Wifi.rawData st) in
  match observations env with
  | [] => (Unfinished, unchanged [] [])
  | t0 :: ticks =>
      match wait_header Wifi.SYNC_DEADLINE (now t0) (arrived t0) ticks with
      | Exhausted => (Unfinished, unchanged [] [])
      | TimedOut rx' _ _ => (HeaderTimeout, unchanged rx' [])
      | Matched rx' _ =>
          let got := take FRAME_BYTES (rx' ++ incoming env) in
          let rx'' := drop FRAME_BYTES (rx' ++ incoming env) in
          let rawData' := store got (Wifi.rawData st) in
          if Nat.eqb (length got) FRAME_BYTES then
            let frame' := decodeFrame rawData' (Wifi.frame st) in
            (Success,
             wifi_after st frame' rawData' rx''
               (broadcastBIN (Wifi.clients st) (frame_bytes frame')))
          else
            (ShortRead (length got),
             wifi_after st (Wifi.frame st) rawData' rx''
               [PrintIncomplete (length got)])
      end
  end.

(** The same for [Standalone.poll]. *)
Definition standalone_poll_summary (env : cycle_env) (st : Standalone.state)
    : PollOutcome * Standalone.state :=
  let unchanged :=
    standalone_after st (Standalone.frame st) (Standalone.rawData st) in
  match observations env with
  | [] => (Unfinished, unchanged [] [])
  | t0 :: ticks =>
      match wait_header Standalone.SYNC_DEADLINE (now t0) (arrived t0) ticks with
      | Exhausted => (Unfinished, unchanged [] [])
      | TimedOut rx' _ _ => (HeaderTimeout, unchanged rx' [PrintNoResponse])
      | Matched rx' _ =>
          let got := take FRAME_BYTES (rx' ++ incoming env) in
          let rx'' := drop FRAME_BYTES (rx' ++ incoming env) in
          let rawData' := store got (Standalone.rawData st) in
          if Nat.eqb (length got) FRAME_BYTES then
            let r := decodeAndShow rawData' (Standalone.frame st) in
            (Success,
             standalone_after st (shown_frame r) rawData' rx''
               [PrintStats (shown_ta r) (minT (shown_stats r))
                  (maxT (shown_stats r))])
          else
            (ShortRead (length got),
             standalone_after st (Standalone.frame st) rawData' rx''
               [PrintIncomplete (length got)])
      end
  end.


(** ** Sample inputs *)

(** A frame whose first pixel reads 25.70 (bytes 0A 0A) and whose second
    reads 327.67 (bytes FF 7F). *)
Definition sample_frame : list byte :=
  [x0a; x0a; xff; x7f] ++ replicate 1536 x00.

(** The same pixels with other ambient and checksum bytes. *)
Definition sample_frame' : list byte :=
  take 1536 sample_frame ++ [x39; x09; xab; xcd].

(** A frame whose first pixel reads -4000 (bytes 60 F0), that is -40.00. *)
Definition minus_40_frame : list byte := [x60; xf0] ++ replicate 1538 x00.

(** A frame whose ambient bytes read 327.67 (FF 7F), a value the pixel
    filter would reject. *)
Definition hot_ambient_frame : list byte :=
  replicate 1536 x00 ++ [xff; x7f; x00; x00].

(** Two complete answers of the sensor that differ in the ambient bytes
    only: 0.00 against 23.61 degrees. *)
Definition answer_cold : cycle_env :=
  CycleEnv [Tick [] 0; Tick (header ++ replicate 1540 x00) 1] [].
Definition answer_warm : cycle_env :=
  CycleEnv [Tick [] 0;
            Tick (header ++ replicate 1536 x00 ++ [x39; x09; x00; x00]) 1] [].

(** The sensor answers with the header and stalls after 1000 bytes. *)
Definition stalled_answer : cycle_env :=
  CycleEnv [Tick [] 0; Tick header 1; Tick [] 2] (replicate 1000 x01).

(** A header with one stray 5A in front of it, then a full payload; the
    sensor has sent it all by the first pass of the loop, the clock stays
    inside the 500 ms for 1600 passes, and then shows 500. *)
Definition overlap_stream : list byte :=
  [x5a] ++ header ++ replicate 1540 x00.
Definition overlap_ticks : list tick :=
  Tick overlap_stream 0 :: replicate 1600 (Tick [] 1) ++ [Tick [] 500].

(** A clock that reaches 500 at its third observation. *)
Definition expiry_ticks : list tick :=
  [Tick [x00] 100; Tick [] 499; Tick [] 500; Tick [] 700].

(** ** A shorter way to the same quotient

    100.0 is 25 * 2^48 * 2^-46, so the 106-bit by 53-bit division of
    [SFdiv] comes to a division by 25. [celsius_by_25] takes that way when
    the dividend has its 53 digits (it always has) and is [celsius]
    otherwise; it is only used to run the filter over all 65536 readings. *)
Definition quotient_location (rem : Z) : location :=
  if rem =? 0 then loc_Exact else loc_Inexact (Z.compare (2 * rem) 25).

Definition celsius_by_25 (raw : Z) : spec_float :=
  match FP.double_of_int raw with
  | S754_finite s m e =>
      if (Z.pos (digits2_pos m) =? 53) && (-1067 <=? e) then
        let '(q, rem) := Z.div_eucl (Z.pos m * 32) 25 in
        FP.to_float
          (binary_round_aux 53 1024 s q (e - 7) (quotient_location rem))
      else celsius raw
  | _ => celsius raw
  end.

(** [n] consecutive integers from [lo]. *)
Fixpoint upto (n : nat) (lo : Z) : list Z :=
  match n with
  | O => []
  | S n' => lo :: upto n' (lo + 1)
  end.

(** The bounds of the filter and their opposites, as binary64 values. *)
Definition MINUS_40 : spec_float := Eval cbv in FP.double_of_int (-40).
Definition PLUS_300 : spec_float := Eval cbv in FP.double_of_int 300.
Definition PLUS_40 : spec_float := Eval cbv in FP.double_of_int 40.
Definition MINUS_300 : spec_float := Eval cbv in FP.double_of_int (-300).

(** The filter on the reading [raw >= 0] and, by symmetry, on [- raw]. *)
Definition filter_agrees (raw : Z) : bool :=
  let d := FP.to_double (celsius_by_25 raw) in
  Bool.eqb (FP.lt MINUS_40 d && FP.lt d PLUS_300) (in_range raw)
  && Bool.eqb (FP.lt d PLUS_40 && FP.lt MINUS_300 d) (in_range (- raw)).

(** The magnitudes of the 16-bit readings: 0 to 32768. *)
Definition magnitudes : list Z := upto (Z.to_nat 32769) 0.

(** * The first sketch

    The sketch without a deadline and without a filter (the file that opens
    with the banner "GY-MCU90640 Binaire"): it looks for 5A 5A and the frame
    type, takes the length byte as it comes, reads 1536 bytes and overwrites
    the whole grid, high byte first. *)

#[global] Instance spec_float_inhabited : Inhabited spec_float :=
  populate FP.zero.

Module Basic.

Inductive event :=
  | SensorWrite (bs : list byte)
  | PrintMinMax (lo hi : spec_float)
  | PrintRow (hot : list bool)
  | PrintRule.

Record state := State {
  frame : list spec_float;
  rawData : list byte;
  rx : list byte;
  out : list event }.

Definition with_frame (f : list spec_float) (st : state) : state :=
  State f (rawData st) (rx st) (out st).
Definition with_rawData (r : list byte) (st : state) : state :=
  State (frame st) r (rx st) (out st).
Definition with_rx (r : list byte) (st : state) : state :=
  State (frame st) (rawData st) r (out st).
Definition emit (es : list event) (st : state) : state :=
  State (frame st) (rawData st) (rx st) (out st ++ es).

Definition boot : state :=
  State (replicate PIXELS FP.zero) (replicate FRAME_BYTES x00) [] [].

(** [setup()]: the start command. *)
Definition setup (st : state) : state :=
  emit [SensorWrite query_command] st.

Definition PIXEL_BYTES : nat := 1536.

(** [int16_t tempInt = (rawData[i * 2] << 8) | rawData[i * 2 + 1];
     frame[i] = tempInt / 100.0;] *)
Definition parse_pixel (rawData : list byte) (i : nat)
    (frame : list spec_float) : list spec_float :=
  let tempInt := sample16 rawData (i * 2 + 1)%nat (i * 2)%nat in
  <[i := celsius tempInt]> frame.

Fixpoint parse_loop (n : nat) (i : nat) (rawData : list byte)
    (frame : list spec_float) : list spec_float :=
  match n with
  | O => frame
  | S n' => parse_loop n' (S i) rawData (parse_pixel rawData i frame)
  end.

(** [void parsePixels()] *)
Definition parsePixels (rawData : list byte) (frame : list spec_float)
    : list spec_float :=
  parse_loop PIXELS 0 rawData frame.

(** [if (frame[i] < minT) minT = frame[i];
     if (frame[i] > maxT) maxT = frame[i];] *)
Definition stats_step (c : spec_float) (s : stats) : stats :=
  Stats (if FP.lt c (minT s) then c else minT s)
        (if FP.lt (maxT s) c then c else maxT s).

Fixpoint stats_loop (n : nat) (i : nat) (frame : list spec_float)
    (s : stats) : stats :=
  match n with
  | O => s
  | S n' => stats_loop n' (S i) frame (stats_step (frame !!! i) s)
  end.

(** [frame[y * 32 + x] > 30 ? '#' : '.'] *)
Definition hot (c : spec_float) : bool := FP.lt (float_of_int 30) c.

(** One printed line: the 32 cells of row [y]. *)
Definition row (frame : list spec_float) (y : nat) : list bool :=
  map (fun x => hot (frame !!! (y * 32 + x)%nat)) (seq 0 32).

(** [for (int y = 0; y < 24; y += 2) { ... }], [n] lines from row [y]. *)
Fixpoint row_loop (n : nat) (y : nat) (frame : list spec_float)
    : list event :=
  match n with
  | O => []
  | S n' => PrintRow (row frame y) :: row_loop n' (y + 2) frame
  end.

(** [void showStats()] *)
Definition showStats (frame : list spec_float) : list event :=
  let s := stats_loop 767 1 frame (Stats (frame !!! 0%nat) (frame !!! 0%nat)) in
  PrintMinMax (minT s) (maxT s) :: row_loop 12 0 frame ++ [PrintRule].

(** What the sensor does during one pass of [loop()]. Bytes that reach the
    buffer while the pass runs matter at the reads that can find it empty:
    the third and the fourth [read()] (the test before them asks for two
    bytes only) and [readBytes]. *)
Record loop_env := LoopEnv {
  before_type : list byte;
  before_length : list byte;
  during_read : list byte }.

(** [void loop()] *)
Definition loop (env : loop_env) (st : state) : state :=
  if 2 <=? Z.of_nat (length (rx st)) then
    let '(c0, rx1) := serial_read (rx st) in
    if negb (c0 =? 0x5A) then with_rx rx1 st else
    let '(c1, rx2) := serial_read rx1 in
    if negb (c1 =? 0x5A) then with_rx rx2 st else
    let '(c2, rx3) := serial_read (rx2 ++ before_type env) in
    if negb (c2 =? 0x02) then with_rx rx3 st else
    (* uint8_t dataLen = ThermalSerial.read(); *)
    let '(dataLen, rx4) := serial_read (rx3 ++ before_length env) in
    let '(got, rx5) := readBytes PIXEL_BYTES rx4 (during_read env) in
    let st := with_rx rx5 (with_rawData (store got (rawData st)) st) in
    if Nat.eqb (length got) PIXEL_BYTES then
      let st := with_frame (parsePixels (rawData st) (frame st)) st in
      emit (showStats (frame st)) st
    else st
  else st.

End Basic.

(** * The page in the browser

    The script of the embedded page, as far as it computes: the view of the
    message as 32-bit floats, the size test, and the colour of each cell.
    The socket's [binaryType] is ["arraybuffer"], so [event.data] is the
    bytes of the message. Numbers are binary64. *)

Module Page.

(** Four bytes of an [ArrayBuffer] as a little-endian 32-bit word. *)
Definition word_of_bytes (b0 b1 b2 b3 : byte) : Z :=
  byte_val b0 + 256 * byte_val b1 + 65536 * byte_val b2
  + 16777216 * byte_val b3.

(** The binary32 value of a 32-bit pattern. *)
Definition float_of_bits (w : Z) : spec_float :=
  let s := 0x80000000 <=? w in
  let E := (w / 0x800000) mod 256 in
  let M := w mod 0x800000 in
  if E =? 0 then
    if M =? 0 then S754_zero s else S754_finite s (Z.to_pos M) (-149)
  else if E =? 255 then
    if M =? 0 then S754_infinity s else S754_nan
  else S754_finite s (Z.to_pos (M + 0x800000)) (E - 150).

Fixpoint floats_of_bytes (buffer : list byte) : list spec_float :=
  match buffer with
  | b0 :: b1 :: b2 :: b3 :: rest =>
      float_of_bits (word_of_bytes b0 b1 b2 b3) :: floats_of_bytes rest
  | _ => []
  end.

(** [new Float32Array(event.data)]: a [RangeError] ([None]) unless the byte
    length is a multiple of 4. *)
Definition Float32Array (buffer : list byte) : option (list spec_float) :=
  if (length buffer mod 4 =? 0)%nat then Some (floats_of_bytes buffer)
  else None.

Definition one : spec_float := FP.double_of_int 1.

(** [x || 1] on numbers: 0, -0 and NaN are falsy. *)
Definition or_one (x : spec_float) : spec_float :=
  match x with
  | S754_zero _ | S754_nan => one
  | _ => x
  end.

(** The loop over [data] that finds [minT] and [maxT], from [Infinity] and
    [-Infinity]. *)
Definition extremes (data : list spec_float) : stats :=
  foldl (fun s c => Basic.stats_step (FP.to_double c) s)
    (Stats (S754_infinity false) (S754_infinity true)) data.

(** [norm = (temp - minT) / (maxT - minT || 1); hue = (1 - norm) * 240] *)
Definition hue (s : stats) (temp : spec_float) : spec_float :=
  let norm :=
    SFdiv 53 1024 (SFsub 53 1024 (FP.to_double temp) (minT s))
      (or_one (SFsub 53 1024 (maxT s) (minT s))) in
  SFmul 53 1024 (SFsub 53 1024 one norm) (FP.double_of_int 240).

(** [drawHeatmap(data)]: the hue of each rectangle, row after row. *)
Definition drawHeatmap (data : list spec_float) : list spec_float :=
  let s := extremes data in
  flat_map (fun y => map (fun x => hue s (data !!! (y * 32 + x)%nat)) (seq 0 32))
    (seq 0 24).

Inductive reaction :=
  | Threw
  | Ignored
  | Drew (hues : list spec_float).

(** [onMessage(event)] *)
Definition onMessage (payload : list byte) : reaction :=
  match Float32Array payload with
  | None => Threw
  | Some data =>
      if Nat.eqb (length data) 768 then Drew (drawHeatmap data) else Ignored
  end.

End Page.

(** * Vocabulary of the further properties *)

(** The big-endian reading of a byte pair, as the first sketch takes it. *)
Definition int16_be (hi lo : byte) : Z := int16_le lo hi.

(** A key that orders the floats other than NaN as their comparison does:
    the sign class first, then exponent and mantissa (negated for negative
    numbers). *)
Definition order_key (x : spec_float) : Z * Z * Z :=
  match x with
  | S754_nan => (0, 0, 0)
  | S754_zero _ => (0, 0, 0)
  | S754_infinity s => (if s then -2 else 2, 0, 0)
  | S754_finite s m e => if s then (-1, - e, - Z.pos m) else (1, e, Z.pos m)
  end.

Definition key_lt (a b : Z * Z * Z) : Prop :=
  let '(c1, e1, m1) := a in
  let '(c2, e2, m2) := b in
  c1 < c2 \/ (c1 = c2 /\ (e1 < e2 \/ (e1 = e2 /\ m1 < m2))).

Definition not_nan (x : spec_float) : Prop := x <> S754_nan.

(** A value in the form in which a [float] variable holds it. *)
Definition binary32 (x : spec_float) : Prop := valid_binary 24 128 x = true.

(** The readings 1, 2, ... climb: each decodes to a binary32 value above
    the one before. *)
Fixpoint ladder (n : nat) (raw : Z) (below : spec_float) : bool :=
  match n with
  | O => true
  | S n' =>
      let t := celsius_by_25 raw in
      valid_binary 24 128 t && FP.lt below t && ladder n' (raw + 1) t
  end.

(** The pixels of a frame that pass the filter. *)
Definition passes (rawData : list byte) (i : nat) : bool :=
  plausible (celsius (pixel_raw rawData i)).

(** The state a pass of the first sketch leaves after a complete frame. *)
Definition basic_parsed (st : Basic.state) (got rx' : list byte)
    : Basic.state :=
  let rawData' := store got (Basic.rawData st) in
  let frame' := Basic.parsePixels rawData' (Basic.frame st) in
  Basic.State frame' rawData' rx' (Basic.out st ++ Basic.showStats frame').

(** The running minimum and maximum over the indices [i], [i+1], ... that
    [pass], of the values [val]: the shape of the three loops that keep
    extremes. *)
Fixpoint running (n : nat) (i : nat) (pass : nat -> bool)
    (val : nat -> spec_float) (s : stats) : stats :=
  match n with
  | O => s
  | S n' =>
      running n' (S i) pass val
        (if pass i then Basic.stats_step (val i) s else s)
  end.

(** [s] bounds the value [c]: [c] is not below the minimum nor above the
    maximum. *)
Definition within (s : stats) (c : spec_float) : Prop :=
  FP.lt c (minT s) = false /\ FP.lt (maxT s) c = false.


(** The two arrays of a sketch as declared: 768 cells that each hold a
    [float], and 1540 raw bytes. *)
Definition arrays_ok (frame : list spec_float) (rawData : list byte) : Prop :=
  length frame = PIXELS /\ length rawData = FRAME_BYTES /\
  Forall binary32 frame.

(** The bytes the observations [ticks] brought. *)
Definition arrivals (ticks : list tick) : list byte :=
  concat (map arrived ticks).

(** A sensor that does not answer, seen by a clock that reads 0 and then
    1000. *)
Definition silent_sensor : cycle_env := CycleEnv [Tick [] 0; Tick [] 1000] [].

(** A false start and then the header, arriving in three pieces that cut
    both of them: 5A 5A 02, then 99 5A 5A, then 02 06 and two bytes more. *)
Definition pieces_early : list tick :=
  [Tick [x5a; x5a; x02] 1; Tick [x99; x5a; x5a] 2].
Definition pieces_last : tick := Tick [x02; x06; x11; x22] 3.

(** A complete answer whose first pixel reads 25.70 and whose second one
    reads 327.67. *)
Definition answer_sample : cycle_env :=
  CycleEnv [Tick [] 0; Tick (header ++ sample_frame) 1] [].
(** * Properties *)

(** ** Bytes and 16-bit samples *)

Lemma byte_val_range (b : byte) : 0 <= byte_val b < 256.
Proof.
  unfold byte_val. pose proof (Byte.to_N_bounded b) as Hb.
  split; [apply N2Z.is_nonneg |].
  change 256 with (Z.succ (Z.of_N 255)). apply Zle_lt_succ.
  apply N2Z.inj_le. exact Hb.
Qed.

Lemma byte_val_inj (b c : byte) : byte_val b = byte_val c -> b = c.
Proof.
  unfold byte_val. intros H. apply N2Z.inj in H.
  pose proof (Byte.of_to_N b) as Hb. rewrite H, Byte.of_to_N in Hb.
  congruence.
Qed.

Lemma byte_val_eqb_ne (b c : byte) :
  b <> c -> (byte_val b =? byte_val c) = false.
Proof.
  intros Hne. apply Z.eqb_neq. intros H. apply Hne, byte_val_inj, H.
Qed.

Lemma byte_val_of_Z (z : Z) : byte_val (FP.byte_of_Z z) = z mod 256.
Proof.
  unfold FP.byte_of_Z, byte_val.
  pose proof (Z.mod_pos_bound z 256 ltac:(lia)) as Hm.
  destruct (Byte.of_N (Z.to_N (z mod 256))) as [b |] eqn:Hb.
  - apply Byte.to_of_N in Hb. simpl. rewrite Hb. apply Z2N.id. lia.
  - apply Byte.of_N_None_iff in Hb. lia.
Qed.

Lemma land_shiftl_8_low (h l : Z) :
  0 <= l < 256 -> Z.land (Z.shiftl h 8) l = 0.
Proof.
  intros Hl. apply Z.bits_inj'. intros n Hn.
  rewrite Z.land_spec, Z.bits_0.
  destruct (Z.ltb_spec n 8) as [Hlow | Hhigh].
  - rewrite Z.shiftl_spec_low by lia. reflexivity.
  - destruct (Z.eq_dec l 0) as [-> | Hne].
    + rewrite Z.bits_0. apply andb_false_r.
    + rewrite (Z.bits_above_log2 l n), andb_false_r; [reflexivity | lia |].
      apply Z.lt_le_trans with 8; [| exact Hhigh].
      apply Z.log2_lt_pow2; lia.
Qed.

Lemma lor_shiftl_8 (h l : Z) :
  0 <= l < 256 -> Z.lor (Z.shiftl h 8) l = 256 * h + l.
Proof.
  intros Hl.
  rewrite <- Z.lxor_lor by (apply land_shiftl_8_low; exact Hl).
  rewrite <- Z.add_nocarry_lxor by (apply land_shiftl_8_low; exact Hl).
  rewrite Z.shiftl_mul_pow2 by lia. change (2 ^ 8) with 256. lia.
Qed.

(** The sample is the little-endian two's-complement reading of the pair. *)
Lemma sample16_signed_le (rawData : list byte) (lo hi : nat) :
  sample16 rawData lo hi =
    rawData_at rawData lo + 256 * rawData_at rawData hi
    - (if rawData_at rawData hi <? 128 then 0 else 65536).
Proof.
  unfold sample16, rawData_at, to_int16.
  pose proof (byte_val_range (rawData !!! lo)) as Hl.
  pose proof (byte_val_range (rawData !!! hi)) as Hh.
  rewrite lor_shiftl_8 by lia.
  rewrite Z.mod_small by lia.
  destruct (Z.ltb_spec (byte_val (rawData !!! hi)) 128);
    destruct (Z.ltb_spec (256 * byte_val (rawData !!! hi)
                          + byte_val (rawData !!! lo)) 32768); lia.
Qed.

Lemma int16_le_range lo hi : -32768 <= int16_le lo hi <= 32767.
Proof.
  unfold int16_le.
  pose proof (byte_val_range lo). pose proof (byte_val_range hi).
  destruct (Z.ltb_spec (byte_val hi) 128); lia.
Qed.

Lemma sample16_lookup rawData lo hi (bl bh : byte) :
  rawData !! lo = Some bl -> rawData !! hi = Some bh ->
  sample16 rawData lo hi = int16_le bl bh.
Proof.
  intros Hl Hh. rewrite sample16_signed_le. unfold rawData_at, int16_le.
  rewrite (list_lookup_total_correct _ _ _ Hl).
  rewrite (list_lookup_total_correct _ _ _ Hh). reflexivity.
Qed.

Lemma sample16_range (rawData : list byte) (lo hi : nat) :
  -32768 <= sample16 rawData lo hi <= 32767.
Proof.
  rewrite sample16_signed_le. unfold rawData_at.
  pose proof (byte_val_range (rawData !!! lo)).
  pose proof (byte_val_range (rawData !!! hi)).
  destruct (Z.ltb_spec (byte_val (rawData !!! hi)) 128); lia.
Qed.

(** ** The filter, reading by reading *)

Lemma binary_round_aux_opp prec emax m e l :
  binary_round_aux prec emax true m e l
  = SFopp (binary_round_aux prec emax false m e l).
Proof.
  unfold binary_round_aux.
  destruct (shr_fexp prec emax m e l) as [mrs' e'].
  destruct (shr_fexp prec emax _ e' loc_Exact) as [mrs'' e''].
  destruct (shr_m mrs''); [reflexivity | | reflexivity].
  destruct (_ <=? _); reflexivity.
Qed.

Lemma binary_round_opp prec emax m e :
  binary_round prec emax true m e = SFopp (binary_round prec emax false m e).
Proof.
  unfold binary_round. destruct (shl_align _ _ _) as [mz ez].
  apply binary_round_aux_opp.
Qed.

Lemma SFopp_involutive x : SFopp (SFopp x) = x.
Proof. destruct x as [s | s | | s m e]; try destruct s; reflexivity. Qed.

Lemma to_float_opp x : FP.to_float (SFopp x) = SFopp (FP.to_float x).
Proof.
  destruct x as [s | s | | s m e]; try reflexivity.
  cbn [SFopp FP.to_float]. destruct s; cbn [negb].
  - rewrite binary_round_opp, SFopp_involutive. reflexivity.
  - apply binary_round_opp.
Qed.

Lemma to_double_opp x : FP.to_double (SFopp x) = SFopp (FP.to_double x).
Proof.
  destruct x as [s | s | | s m e]; try reflexivity.
  cbn [SFopp FP.to_double]. destruct s; cbn [negb].
  - rewrite binary_round_opp, SFopp_involutive. reflexivity.
  - apply binary_round_opp.
Qed.

Lemma double_div_opp x my ey :
  FP.double_div (SFopp x) (S754_finite false my ey)
  = SFopp (FP.double_div x (S754_finite false my ey)).
Proof.
  unfold FP.double_div.
  destruct x as [s | s | | s m e];
    [destruct s; reflexivity | destruct s; reflexivity | reflexivity |].
  cbn [SFopp SFdiv].
  destruct (SFdiv_core_binary 53 1024 (Z.pos m) e (Z.pos my) ey) as [[mz ez] lz].
  destruct s; cbn [negb xorb].
  - rewrite binary_round_aux_opp, SFopp_involutive. reflexivity.
  - apply binary_round_aux_opp.
Qed.

(** A reading and its opposite decode to opposite temperatures. *)
Lemma celsius_opp (p : positive) :
  celsius (Z.neg p) = SFopp (celsius (Z.pos p)).
Proof.
  unfold celsius.
  change (FP.double_of_int (Z.neg p)) with (binary_round 53 1024 true p 0).
  change (FP.double_of_int (Z.pos p)) with (binary_round 53 1024 false p 0).
  change (FP.double_of_int 100) with (S754_finite false 7036874417766400 (-46)).
  rewrite binary_round_opp, double_div_opp, to_float_opp. reflexivity.
Qed.

Lemma SFcompare_opp a b : SFcompare (SFopp a) (SFopp b) = SFcompare b a.
Proof.
  destruct a as [sa | sa | | sa ma ea], b as [sb | sb | | sb mb eb];
    try reflexivity;
    try (destruct sa; reflexivity);
    try (destruct sb; reflexivity);
    try (destruct sa, sb; reflexivity).
  cbn [SFopp SFcompare].
  pose proof (Z.compare_antisym ea eb) as He.
  pose proof (Pos.compare_cont_antisym ma mb Eq) as Hm. cbn [CompOpp] in Hm.
  rewrite He, <- Hm.
  destruct sa, sb; cbn [negb]; try reflexivity;
    destruct (ea ?= eb); cbn [CompOpp]; try reflexivity.
  destruct (Pos.compare_cont Eq ma mb); reflexivity.
Qed.

Lemma lt_opp a b : FP.lt (SFopp a) (SFopp b) = FP.lt b a.
Proof. unfold FP.lt, SFltb. rewrite SFcompare_opp. reflexivity. Qed.

Lemma div_eucl_pair (a b : Z) : Z.div_eucl a b = (a / b, a mod b).
Proof. unfold Z.div, Z.modulo. destruct (Z.div_eucl a b). reflexivity. Qed.

Lemma quotient_location_scaled (rem : Z) :
  new_location (25 * 2 ^ 48) (rem * 2 ^ 48) = quotient_location rem.
Proof.
  unfold new_location. change (Z.even (25 * 2 ^ 48)) with true.
  unfold new_location_even, quotient_location. cbv iota.
  destruct (Z.eqb_spec rem 0) as [-> | Hne]; [reflexivity |].
  destruct (Z.eqb_spec (rem * 2 ^ 48) 0) as [H0 | _]; [lia |].
  f_equal. change (2 ^ 48) with 281474976710656.
  destruct (Z.compare_spec (2 * (rem * 281474976710656))
              (25 * 281474976710656));
    destruct (Z.compare_spec (2 * rem) 25); try reflexivity; lia.
Qed.

(** The core of the division by 100.0 of a dividend with 53 digits. *)
Lemma div_core_by_100 (m : positive) (e : Z) :
  Z.pos (digits2_pos m) = 53 -> -1067 <= e ->
  SFdiv_core_binary 53 1024 (Z.pos m) e (25 * 2 ^ 48) (-46)
  = (Z.pos m * 32 / 25, e - 7, quotient_location ((Z.pos m * 32) mod 25)).
Proof.
  intros Hd He. unfold SFdiv_core_binary.
  change (Zdigits2 (Z.pos m)) with (Z.pos (digits2_pos m)). rewrite Hd.
  change (Zdigits2 (25 * 2 ^ 48)) with 53.
  unfold fexp, emin.
  replace (Z.min (Z.max (53 + e - (53 + -46) - 53) (3 - 1024 - 53)) (e - -46))
    with (e - 7) by lia.
  replace (e - -46 - (e - 7)) with 53 by lia.
  cbv iota beta zeta.
  rewrite div_eucl_pair.
  rewrite Z.shiftl_mul_pow2 by lia.
  replace (Z.pos m * 2 ^ 53) with (Z.pos m * 32 * 2 ^ 48) by lia.
  rewrite Z.div_mul_cancel_r by lia.
  rewrite Z.mul_mod_distr_r by lia.
  rewrite quotient_location_scaled. reflexivity.
Qed.

Lemma celsius_by_25_correct (raw : Z) : celsius_by_25 raw = celsius raw.
Proof.
  unfold celsius_by_25, celsius.
  destruct (FP.double_of_int raw) as [s | s | | s m e]; try reflexivity.
  destruct (Z.eqb_spec (Z.pos (digits2_pos m)) 53) as [Hd | _];
    [| reflexivity].
  destruct (Z.leb_spec (-1067) e) as [He | _]; [| reflexivity].
  cbn [andb]. rewrite div_eucl_pair.
  change (FP.double_of_int 100) with (S754_finite false 7036874417766400 (-46)).
  unfold FP.double_div, SFdiv.
  change (Z.pos 7036874417766400) with (25 * 2 ^ 48).
  rewrite (div_core_by_100 m e Hd He).
  destruct s; reflexivity.
Qed.

Lemma upto_In (n : nat) :
  forall lo x, lo <= x < lo + Z.of_nat n -> In x (upto n lo).
Proof.
  induction n as [| n IH]; intros lo x Hx; [lia |].
  cbn [upto]. destruct (Z.eq_dec x lo) as [-> | Hne]; [left; reflexivity |].
  right. apply IH. lia.
Qed.

(** The filter run on every magnitude. *)
Lemma filter_agrees_all : forallb filter_agrees magnitudes = true.
Proof. vm_compute. reflexivity. Qed.

Lemma filter_agrees_at (raw : Z) :
  0 <= raw <= 32768 -> filter_agrees raw = true.
Proof.
  intros Hr. pose proof filter_agrees_all as Hall.
  rewrite forallb_forall in Hall. apply Hall.
  apply upto_In. rewrite Z2Nat.id by lia. lia.
Qed.

(** On the 16-bit readings the test [t > -40.0 && t < 300.0] of
    [t = raw / 100.0] is the test [-4000 < raw < 30000]. *)
Lemma plausible_in_range (raw : Z) :
  -32768 <= raw <= 32767 -> plausible (celsius raw) = in_range raw.
Proof.
  intros Hr. destruct raw as [| p | p].
  - reflexivity.
  - pose proof (filter_agrees_at (Z.pos p) ltac:(lia)) as H.
    unfold filter_agrees in H. rewrite celsius_by_25_correct in H.
    apply andb_prop in H as [H _]. apply Bool.eqb_prop in H. exact H.
  - pose proof (filter_agrees_at (Z.pos p) ltac:(lia)) as H.
    unfold filter_agrees in H. rewrite celsius_by_25_correct in H.
    apply andb_prop in H as [_ H]. apply Bool.eqb_prop in H.
    change (- Z.pos p) with (Z.neg p) in H. rewrite <- H.
    rewrite celsius_opp. unfold plausible. rewrite to_double_opp.
    change (FP.double_of_int (-40)) with (SFopp PLUS_40).
    change (FP.double_of_int 300) with (SFopp MINUS_300).
    cbv zeta. rewrite !lt_opp. reflexivity.
Qed.

Lemma plausible_finite (t : spec_float) :
  plausible t = true -> FP.finite t = true.
Proof.
  destruct t as [s | s | | s m e]; try reflexivity.
  - destruct s; vm_compute; discriminate.
  - vm_compute; discriminate.
Qed.

Lemma plausible_zero : plausible FP.zero = true.
Proof. reflexivity. Qed.

(** The filter at its edges: -40.00 and 300.00 are kept out, the readings
    next to them are let in. *)
Example plausible_edges :
  plausible (celsius (-4001)) = false /\ plausible (celsius (-4000)) = false /\
  plausible (celsius (-3999)) = true /\ plausible (celsius 29999) = true /\
  plausible (celsius 30000) = false /\ plausible (celsius 30001) = false.
Proof. vm_compute. repeat split. Qed.

(** ** The pixel loop, cell by cell *)

Lemma lookup_insert_fmap {A} (l : list A) (i j : nat) (x : A) :
  <[i := x]> l !! j = (if decide (j = i) then (fun _ => x) else id) <$> l !! j.
Proof.
  destruct (decide (j = i)) as [-> | Hne].
  - destruct (decide (i < length l)%nat) as [Hlt | Hge].
    + rewrite list_lookup_insert_eq by done.
      destruct (lookup_lt_is_Some_2 l i Hlt) as [y ->]. done.
    + rewrite list_insert_ge by lia.
      rewrite (lookup_ge_None_2 l i) by lia. done.
  - rewrite list_lookup_insert_ne by done.
    destruct (l !! j); done.
Qed.

Lemma decode_pixel_lookup rawData i frame j :
  decode_pixel rawData i frame !! j
  = (if decide (j = i) then decode_cell rawData i else id) <$> frame !! j.
Proof.
  unfold decode_pixel, decode_cell, pixel_raw.
  destruct (plausible _).
  - apply lookup_insert_fmap.
  - destruct (decide (j = i)); destruct (frame !! j); done.
Qed.

Lemma decode_loop_lookup n i rawData frame j :
  decode_loop n i rawData frame !! j
  = (if decide (i <= j < i + n)%nat then decode_cell rawData j else id)
      <$> frame !! j.
Proof.
  revert i frame. induction n as [| n IH]; intros i frame; simpl.
  - destruct (decide _); [lia |]. destruct (frame !! j); done.
  - rewrite IH, decode_pixel_lookup.
    destruct (frame !! j) as [old |]; simpl;
      repeat case_decide; subst; try lia; done.
Qed.

Lemma decode_loop_length n i rawData frame :
  length (decode_loop n i rawData frame) = length frame.
Proof.
  revert i frame. induction n as [| n IH]; intros i frame; simpl; [done |].
  rewrite IH. unfold decode_pixel. destruct (plausible _); [| done].
  apply length_insert.
Qed.

Lemma decodeFrame_length rawData frame :
  length (decodeFrame rawData frame) = length frame.
Proof. apply decode_loop_length. Qed.

Lemma decodeFrame_lookup rawData frame i :
  (i < PIXELS)%nat ->
  decodeFrame rawData frame !! i = decode_cell rawData i <$> frame !! i.
Proof.
  intros Hi. unfold decodeFrame. rewrite decode_loop_lookup.
  destruct (decide _); [done | lia].
Qed.

(** The loop never touches a cell past the 768th. *)
Lemma decodeFrame_lookup_ge rawData frame i :
  (PIXELS <= i)%nat -> decodeFrame rawData frame !! i = frame !! i.
Proof.
  intros Hi. unfold decodeFrame. rewrite decode_loop_lookup.
  destruct (decide _); [lia |]. destruct (frame !! i); done.
Qed.

(** ** The grid invariant *)

Lemma decode_cell_plausible rawData i old :
  plausible old = true -> plausible (decode_cell rawData i old) = true.
Proof.
  intros Hold. unfold decode_cell.
  destruct (plausible (celsius _)) eqn:Ht; [exact Ht | exact Hold].
Qed.

Lemma decodeFrame_grid_ok rawData frame :
  grid_ok frame -> grid_ok (decodeFrame rawData frame).
Proof.
  intros [Hlen Hall]. split; [rewrite decodeFrame_length; exact Hlen |].
  apply Forall_lookup. intros i c Hc.
  destruct (decide (i < PIXELS)%nat) as [Hi | Hi].
  - rewrite decodeFrame_lookup in Hc by exact Hi.
    destruct (frame !! i) as [old |] eqn:Hold; [| discriminate].
    injection Hc as <-. apply decode_cell_plausible.
    exact (Forall_lookup_1 _ _ _ _ Hall Hold).
  - rewrite decodeFrame_lookup_ge in Hc by lia.
    exact (Forall_lookup_1 _ _ _ _ Hall Hc).
Qed.

Lemma clear_loop_lookup n i frame j :
  Wifi.clear_loop n i frame !! j
  = (if decide (i <= j < i + n)%nat then (fun _ => FP.zero) else id)
      <$> frame !! j.
Proof.
  revert i frame. induction n as [| n IH]; intros i frame; simpl.
  - case_decide; [lia |]. destruct (frame !! j); done.
  - rewrite IH, lookup_insert_fmap.
    destruct (frame !! j); simpl; repeat case_decide; subst; try lia; done.
Qed.

(** The grid after [setup()] is all 0.0, whatever it held before. *)
Lemma setup_frame (st : Wifi.state) :
  length (Wifi.frame st) = PIXELS ->
  Wifi.frame (Wifi.setup st) = replicate PIXELS FP.zero.
Proof.
  intros Hlen. unfold Wifi.setup, Wifi.with_frame, Wifi.emit.
  cbn [Wifi.frame]. apply list_eq. intros j.
  rewrite clear_loop_lookup.
  destruct (decide (j < PIXELS)%nat) as [Hj | Hj].
  - rewrite lookup_replicate_2 by exact Hj.
    destruct (lookup_lt_is_Some_2 (Wifi.frame st) j) as [c ->]; [lia |].
    simpl. case_decide; [done | lia].
  - rewrite (lookup_ge_None_2 (replicate _ _)) by (rewrite length_replicate; lia).
    rewrite lookup_ge_None_2 by lia. done.
Qed.

Lemma initial_grid_ok : grid_ok (replicate PIXELS FP.zero).
Proof.
  split; [apply length_replicate |].
  apply Forall_replicate, plausible_zero.
Qed.

Lemma decode_all_grid_ok frames frame :
  grid_ok frame -> grid_ok (decode_all frames frame).
Proof.
  revert frame. induction frames as [| rawData frames IH]; intros frame Hok.
  - exact Hok.
  - simpl. apply IH, decodeFrame_grid_ok, Hok.
Qed.

(** ** Bytes past the pixels *)

Lemma pixel_raw_take rawData i :
  (i < PIXELS)%nat ->
  pixel_raw (take 1536 rawData) i = pixel_raw rawData i.
Proof.
  intros Hi. unfold pixel_raw, sample16, rawData_at, PIXELS in *.
  rewrite !lookup_total_take_lt by lia. reflexivity.
Qed.

Lemma decodeFrame_take rawData frame :
  decodeFrame (take 1536 rawData) frame = decodeFrame rawData frame.
Proof.
  apply list_eq. intros i.
  destruct (decide (i < PIXELS)%nat) as [Hi | Hi].
  - rewrite !decodeFrame_lookup by exact Hi.
    unfold decode_cell. rewrite pixel_raw_take by exact Hi. reflexivity.
  - rewrite !decodeFrame_lookup_ge by lia. reflexivity.
Qed.

Lemma decodeFrame_trailer rawData1 rawData2 frame :
  take 1536 rawData1 = take 1536 rawData2 ->
  decodeFrame rawData1 frame = decodeFrame rawData2 frame.
Proof.
  intros Heq.
  rewrite <- (decodeFrame_take rawData1), <- (decodeFrame_take rawData2).
  rewrite Heq. reflexivity.
Qed.

(** ** [decodeAndShow] and [decodeFrame] fill the grid alike *)

Lemma show_loop_frame n i rawData frame s :
  fst (show_loop n i rawData (frame, s)) = decode_loop n i rawData frame.
Proof.
  revert i frame s. induction n as [| n IH]; intros i frame s; simpl; [done |].
  unfold show_pixel, decode_pixel.
  destruct (plausible _); apply IH.
Qed.

Lemma decodeAndShow_frame rawData frame :
  shown_frame (decodeAndShow rawData frame) = decodeFrame rawData frame.
Proof.
  unfold decodeAndShow, decodeFrame.
  rewrite <- (show_loop_frame PIXELS 0 rawData frame
                (Stats (float_of_int 100) (float_of_int (-100)))).
  destruct (show_loop _ _ _ _). reflexivity.
Qed.

Lemma decodeAndShow_ta rawData frame :
  shown_ta (decodeAndShow rawData frame) = celsius (sample16 rawData 1536 1537).
Proof.
  unfold decodeAndShow. destruct (show_loop _ _ _ _). reflexivity.
Qed.


(** The loops run 768 times; from here on they are used through the lemmas
    above (evaluation by [vm_compute] is not affected). *)
#[global] Opaque decodeFrame decodeAndShow.

(** ** The header test *)

Lemma match_header_found (more : list byte) :
  match_header (header ++ more) = (true, more).
Proof. reflexivity. Qed.

(** A failed test has consumed the whole candidate, mismatching byte
    included, and nothing after it. *)
Lemma match_header_failed (c more : list byte) :
  failed_candidate c -> match_header (c ++ more) = (false, more).
Proof.
  intros [b Hb | b Hb | b Hb | b Hb]; unfold match_header; simpl.
  - change 0x5A with (byte_val x5a). rewrite (byte_val_eqb_ne _ _ Hb). reflexivity.
  - change 0x5A with (byte_val x5a). rewrite (byte_val_eqb_ne _ _ Hb). reflexivity.
  - change 0x02 with (byte_val x02). rewrite (byte_val_eqb_ne _ _ Hb). reflexivity.
  - change 0x06 with (byte_val x06). rewrite (byte_val_eqb_ne _ _ Hb). reflexivity.
Qed.

(** With four bytes buffered the test either finds the header at the front
    or drops one failed candidate from the front. *)
Lemma match_header_cases (rx : list byte) :
  (4 <= length rx)%nat ->
  (exists more, rx = header ++ more /\ match_header rx = (true, more)) \/
  (exists c more, failed_candidate c /\ rx = c ++ more
                  /\ match_header rx = (false, more)).
Proof.
  intros Hlen.
  destruct rx as [| b0 [| b1 [| b2 [| b3 more]]]]; simpl in Hlen; try lia.
  destruct (decide (b0 = x5a)) as [-> | H0];
    [| right; exists [b0], (b1 :: b2 :: b3 :: more);
       split; [constructor; exact H0 |]; split; [reflexivity |];
       exact (match_header_failed [b0] _ (fail_first _ H0))].
  destruct (decide (b1 = x5a)) as [-> | H1];
    [| right; exists [x5a; b1], (b2 :: b3 :: more);
       split; [constructor; exact H1 |]; split; [reflexivity |];
       exact (match_header_failed [x5a; b1] _ (fail_second _ H1))].
  destruct (decide (b2 = x02)) as [-> | H2];
    [| right; exists [x5a; x5a; b2], (b3 :: more);
       split; [constructor; exact H2 |]; split; [reflexivity |];
       exact (match_header_failed [x5a; x5a; b2] _ (fail_third _ H2))].
  destruct (decide (b3 = x06)) as [-> | H3];
    [| right; exists [x5a; x5a; x02; b3], more;
       split; [constructor; exact H3 |]; split; [reflexivity |];
       exact (match_header_failed [x5a; x5a; x02; b3] _ (fail_fourth _ H3))].
  left. exists more. split; reflexivity.
Qed.


(** ** The header wait *)

Section HeaderWait.

Variables deadline startWait : Z.

Lemma wait_header_step_failed c more t rest :
  failed_candidate c -> in_time deadline startWait t ->
  (4 <= length (c ++ more ++ arrived t))%nat ->
  wait_header deadline startWait (c ++ more) (t :: rest)
  = wait_header deadline startWait (more ++ arrived t) rest.
Proof.
  intros Hc Ht Hlen. simpl.
  destruct (Z.ltb_spec (elapsed (now t) startWait) deadline) as [_ | Hge];
    [| unfold in_time in Ht; lia].
  rewrite <- app_assoc.
  destruct (Z.leb_spec 4 (Z.of_nat (length (c ++ more ++ arrived t))));
    [| lia].
  rewrite (match_header_failed c _ Hc). reflexivity.
Qed.

Lemma wait_header_step_found more t rest :
  in_time deadline startWait t ->
  wait_header deadline startWait (header ++ more) (t :: rest)
  = Matched (more ++ arrived t) rest.
Proof.
  intros Ht. simpl.
  destruct (Z.ltb_spec (elapsed (now t) startWait) deadline) as [_ | Hge];
    [| unfold in_time in Ht; lia].
  destruct (Z.leb_spec 4 (Z.of_nat (S (S (S (S (length (more ++ arrived t))))))));
    [reflexivity | lia].
Qed.

(** After as many passes as there are failed candidates in front of it, the
    header is at the front of the buffer and the next pass finds it. *)
Lemma wait_header_after_candidates (cs : list (list byte)) :
  forall (more : list byte) (ticks1 : list tick) (t : tick) (rest : list tick),
    Forall failed_candidate cs ->
    length ticks1 = length cs ->
    Forall (in_time deadline startWait) (ticks1 ++ [t]) ->
    wait_header deadline startWait (concat cs ++ header ++ more)
      (ticks1 ++ t :: rest)
    = Matched (more ++ concat (map arrived ticks1) ++ arrived t) rest.
Proof.
  induction cs as [| c cs IH]; intros more ticks1 t rest Hcs Hlen Htime.
  - destruct ticks1; [| discriminate]. simpl in *.
    apply Forall_cons_1 in Htime as [Ht _].
    exact (wait_header_step_found more t rest Ht).
  - destruct ticks1 as [| t1 ticks1]; [discriminate |].
    apply Forall_cons_1 in Hcs as [Hc Hcs].
    simpl in Htime. apply Forall_cons_1 in Htime as [Ht1 Htime].
    change (concat (c :: cs)) with (c ++ concat cs).
    change ((t1 :: ticks1) ++ t :: rest) with (t1 :: (ticks1 ++ t :: rest)).
    rewrite <- (app_assoc c).
    rewrite wait_header_step_failed; [| exact Hc | exact Ht1 |].
    + rewrite <- !app_assoc.
      rewrite (IH (more ++ arrived t1) ticks1 t rest Hcs); [| | exact Htime].
      * cbn [map concat]. rewrite <- !app_assoc. reflexivity.
      * simpl in Hlen. lia.
    + rewrite !length_app. unfold header. simpl. lia.
Qed.

Lemma expires_at_tail t ticks k tk :
  expires_at deadline startWait (t :: ticks) (S k) tk -> in_time deadline startWait t /\ expires_at deadline startWait ticks k tk.
Proof.
  intros (Hk & Hge & Hbefore). split.
  - apply (Hbefore 0%nat t); [lia | reflexivity].
  - split; [exact Hk |]. split; [exact Hge |].
    intros j tj Hj Htj. apply (Hbefore (S j) tj); [lia | exact Htj].
Qed.

Lemma wait_header_returns (ticks : list tick) :
  forall (rx : list byte) (k : nat) (tk : tick),
    expires_at deadline startWait ticks k tk ->
    match wait_header deadline startWait rx ticks with
    | Matched _ rest => (length ticks - k <= length rest)%nat
    | TimedOut _ at_time rest => at_time = now tk /\ rest = drop (S k) ticks
    | Exhausted => False
    end.
Proof.
  induction ticks as [| t ticks IH]; intros rx k tk Hexp.
  - destruct Hexp as (Hk & _). discriminate.
  - destruct k as [| k].
    + destruct Hexp as (Hk & Hge & _). injection Hk as ->. simpl.
      destruct (Z.ltb_spec (elapsed (now tk) startWait) deadline); [lia |].
      split; reflexivity.
    + apply expires_at_tail in Hexp as [Ht Hexp]. simpl.
      destruct (Z.ltb_spec (elapsed (now t) startWait) deadline);
        [| unfold in_time in Ht; lia].
      specialize (IH (rx ++ arrived t) k tk Hexp) as IH1.
      destruct (4 <=? Z.of_nat (length (rx ++ arrived t))).
      * destruct (match_header (rx ++ arrived t)) as [[|] rx'].
        -- lia.
        -- specialize (IH rx' k tk Hexp).
           destruct (wait_header deadline startWait rx' ticks);
             [lia | exact IH | exact IH].
      * destruct (wait_header deadline startWait (rx ++ arrived t) ticks);
          [lia | exact IH1 | exact IH1].
Qed.

Lemma match_header_quiet rx :
  quiet rx -> exists rx', match_header rx = (false, rx') /\ quiet rx'.
Proof.
  intros Hq. destruct rx as [| b rx].
  - exists []. split; [reflexivity | constructor].
  - apply Forall_cons_1 in Hq as [Hb Hq]. exists rx.
    split; [| exact Hq].
    exact (match_header_failed [b] rx (fail_first b Hb)).
Qed.

(** A source that never sends 5A lets the wait run to its deadline. *)
Lemma wait_header_quiet (ticks : list tick) :
  forall (rx : list byte) (k : nat) (tk : tick),
    expires_at deadline startWait ticks k tk ->
    quiet (rx ++ concat (map arrived (take k ticks))) ->
    exists rx',
      wait_header deadline startWait rx ticks
      = TimedOut rx' (now tk) (drop (S k) ticks).
Proof.
  induction ticks as [| t ticks IH]; intros rx k tk Hexp Hq.
  - destruct Hexp as (Hk & _). discriminate.
  - destruct k as [| k].
    + destruct Hexp as (Hk & Hge & _). injection Hk as ->. simpl.
      destruct (Z.ltb_spec (elapsed (now tk) startWait) deadline); [lia |].
      eexists. reflexivity.
    + apply expires_at_tail in Hexp as [Ht Hexp]. simpl.
      destruct (Z.ltb_spec (elapsed (now t) startWait) deadline);
        [| unfold in_time in Ht; lia].
      simpl in Hq. rewrite app_assoc in Hq.
      apply Forall_app in Hq as [Hq1 Hq2].
      destruct (4 <=? Z.of_nat (length (rx ++ arrived t))).
      * destruct (match_header_quiet _ Hq1) as (rx' & -> & Hq').
        apply (IH rx' k tk Hexp). apply Forall_app. split; assumption.
      * apply (IH (rx ++ arrived t) k tk Hexp).
        apply Forall_app. split; assumption.
Qed.

End HeaderWait.

(** ** One poll cycle *)

Lemma requestSensorData_summary (env : cycle_env) (st : Wifi.state) :
  Wifi.requestSensorData env st = wifi_cycle_summary env st.
Proof.
  unfold Wifi.requestSensorData, wifi_cycle_summary, wifi_after, readBytes,
    Wifi.emit, Wifi.with_rx, Wifi.with_rawData, Wifi.with_frame.
  cbn [Wifi.frame Wifi.rawData Wifi.lastFetch Wifi.rx Wifi.clients Wifi.out].
  rewrite <- !app_assoc. cbn [app].
  destruct (observations env) as [| t0 ticks]; [reflexivity |].
  destruct (wait_header _ _ _ _) as [rx' rest | rx' at_time rest |];
    [| reflexivity ..].
  destruct (Nat.eqb _ _); rewrite <- !app_assoc; reflexivity.
Qed.

Lemma poll_summary (env : cycle_env) (st : Standalone.state) :
  Standalone.poll env st = standalone_poll_summary env st.
Proof.
  unfold Standalone.poll, standalone_poll_summary, standalone_after, readBytes,
    Standalone.emit, Standalone.with_rx, Standalone.with_rawData,
    Standalone.with_frame.
  cbn [Standalone.frame Standalone.rawData Standalone.rx Standalone.out].
  rewrite <- !app_assoc. cbn [app].
  destruct (observations env) as [| t0 ticks]; [reflexivity |].
  destruct (wait_header _ _ _ _) as [rx' rest | rx' at_time rest |];
    [| rewrite <- ?app_assoc; reflexivity ..].
  destruct (Nat.eqb _ _); rewrite <- ?app_assoc; reflexivity.
Qed.

#[global] Opaque Wifi.requestSensorData Standalone.poll.





Lemma wifi_cycle_lastFetch (env : cycle_env) (st : Wifi.state) :
  Wifi.lastFetch (snd (Wifi.requestSensorData env st)) = Wifi.lastFetch st.
Proof.
  rewrite requestSensorData_summary. unfold wifi_cycle_summary.
  destruct (observations env) as [| t0 ticks]; [reflexivity |].
  destruct (wait_header _ _ _ _) as [rx' rest | rx' at_time rest |];
    [| reflexivity ..].
  cbv zeta. destruct (Nat.eqb _ _); reflexivity.
Qed.

Lemma wifi_cycle_success (env : cycle_env) (st st' : Wifi.state) :
  Wifi.requestSensorData env st = (Success, st') ->
  Wifi.frame st' = decodeFrame (Wifi.rawData st') (Wifi.frame st) /\
  Wifi.out st'
  = Wifi.out st ++ [SensorDrain (Wifi.rx st); SensorWrite query_command]
      ++ broadcastBIN (Wifi.clients st) (frame_bytes (Wifi.frame st')).
Proof.
  rewrite requestSensorData_summary. unfold wifi_cycle_summary.
  destruct (observations env) as [| t0 ticks]; [discriminate |].
  destruct (wait_header _ _ _ _) as [rx' rest | rx' at_time rest |];
    [| discriminate ..].
  cbv zeta. destruct (Nat.eqb _ _); [| discriminate].
  intros [= <-]. split; reflexivity.
Qed.


(** A pass of the standalone [loop()]: the drain, the query, a report, and
    once the cycle is over the 5000 ms delay. *)
Lemma standalone_loop_out (env : cycle_env) (st : Standalone.state) :
  exists later,
    Standalone.out (snd (Standalone.loop env st))
    = Standalone.out st ++ SensorDrain (Standalone.rx st)
                           :: SensorWrite query_command :: later
    /\ sensor_writes later = []
    /\ (fst (Standalone.loop env st) <> Unfinished ->
        last later = Some (Delay Standalone.POLL_DELAY)).
Proof.
  unfold Standalone.loop. rewrite poll_summary.
  unfold standalone_poll_summary, standalone_after, Standalone.emit.
  destruct (observations env) as [| t0 ticks].
  { exists []. cbn [snd fst Standalone.out]. repeat split. congruence. }
  destruct (wait_header _ _ _ _) as [rx' rest | rx' at_time rest |].
  - cbv zeta. destruct (Nat.eqb _ _); cbn [snd fst Standalone.out];
      eexists; rewrite <- !app_assoc; (split; [reflexivity |]);
      split; reflexivity.
  - cbn [snd fst Standalone.out]. eexists. rewrite <- !app_assoc.
    split; [reflexivity |]. split; reflexivity.
  - exists []. cbn [snd fst Standalone.out]. repeat split. congruence.
Qed.

(** ** The payload *)
(** The four bytes are the 32-bit pattern, least significant byte first. *)
Lemma float_bytes_little_endian (x : spec_float) :
  map byte_val (FP.float_bytes x)
  = [ FP.bits32 x mod 256; (FP.bits32 x / 2 ^ 8) mod 256;
      (FP.bits32 x / 2 ^ 16) mod 256; (FP.bits32 x / 2 ^ 24) mod 256 ].
Proof.
  unfold FP.float_bytes. cbn [map].
  rewrite !byte_val_of_Z, !Z.shiftr_div_pow2 by lia. reflexivity.
Qed.

(** The encoding on known values: 0.0, 1.0, 25.5, -40.0 and 300.0. *)
Example bits32_known :
  FP.bits32 FP.zero = 0 /\
  FP.bits32 (celsius 100) = 0x3F800000 /\
  FP.bits32 (celsius 2550) = 0x41CC0000 /\
  FP.bits32 (celsius (-4000)) = 0xC2200000 /\
  FP.bits32 (celsius 30000) = 0x43960000.
Proof. vm_compute. repeat split. Qed.

Lemma frame_bytes_length (frame : list spec_float) :
  length (frame_bytes frame) = (4 * length frame)%nat.
Proof.
  unfold frame_bytes. induction frame as [| c frame IH]; [reflexivity |].
  cbn [map concat]. rewrite length_app, IH. cbn [length FP.float_bytes]. lia.
Qed.

(** Cell [i] occupies bytes [4i] to [4i+3] of the payload. *)
Lemma frame_bytes_cell (frame : list spec_float) (i : nat) (c : spec_float) :
  frame !! i = Some c ->
  take 4 (drop (4 * i) (frame_bytes frame)) = FP.float_bytes c.
Proof.
  unfold frame_bytes. revert i.
  induction frame as [| c0 frame IH]; intros i Hi; [discriminate |].
  destruct i as [| i].
  - injection Hi as ->. reflexivity.
  - replace (4 * S i)%nat with (4 + 4 * i)%nat by lia.
    cbn [map concat]. rewrite <- drop_drop.
    rewrite (drop_app_length' (FP.float_bytes c0)) by reflexivity.
    apply IH. exact Hi.
Qed.


(** * The claims *)

(** ** Synchronisation *)

(** C1, as stated, fails. The first test reads 5A 5A 5A and fails on its
    third byte; that byte, which starts the real header, is gone with the two
    before it, the search goes on at 02, and the header is never found
    although it and its payload were there from the first pass. *)
Lemma overlapping_header_missed :
  match_header overlap_stream = (false, [x02; x06] ++ replicate 1540 x00) /\
  wait_header Wifi.SYNC_DEADLINE 0 [] overlap_ticks
  = TimedOut [x00; x00; x00] 500 [] /\
  fst (Wifi.requestSensorData (CycleEnv (Tick [] 0 :: overlap_ticks) [])
         Wifi.boot) = HeaderTimeout.
Proof. vm_compute. repeat split. Qed.

(** C9. Take any buffer, any arrivals and any clock, and let observation [k]
    be the first whose reading is [deadline] or more after [startWait]. Then
    the wait returns: it does not use up the observations; if it returns a
    timeout it does so at observation [k] exactly, having read the clock
    there, and hands back everything after it; if it returns a match it has
    used fewer than [k + 1] observations; and when no byte equal to 5A ever
    arrives the result is the timeout. So the cycle of the WebSocket
    sketches, whose deadline is 500 ms, and that of the standalone sketch,
    whose deadline is 1000 ms, come to an end, on [HeaderTimeout] when the
    source stays quiet. *)
Theorem header_wait_bounded (deadline : Z) (t0 : tick) (rx : list byte)
    (ticks : list tick) (k : nat) (tk : tick) :
  expires_at deadline (now t0) ticks k tk ->
  let result := wait_header deadline (now t0) rx ticks in
  result <> Exhausted /\
  (forall rx' at_time rest,
     result = TimedOut rx' at_time rest ->
     at_time = now tk /\ rest = drop (S k) ticks) /\
  (forall rx' rest,
     result = Matched rx' rest -> (length ticks - k <= length rest)%nat) /\
  (quiet (rx ++ concat (map arrived (take k ticks))) ->
   exists rx', result = TimedOut rx' (now tk) (drop (S k) ticks)) /\
  (deadline = 500 -> forall inc st,
     fst (Wifi.requestSensorData (CycleEnv (t0 :: ticks) inc) st)
     <> Unfinished /\
     (quiet (arrived t0 ++ concat (map arrived (take k ticks))) ->
      fst (Wifi.requestSensorData (CycleEnv (t0 :: ticks) inc) st)
      = HeaderTimeout)) /\
  (deadline = 1000 -> forall inc st,
     fst (Standalone.poll (CycleEnv (t0 :: ticks) inc) st) <> Unfinished /\
     (quiet (arrived t0 ++ concat (map arrived (take k ticks))) ->
      fst (Standalone.poll (CycleEnv (t0 :: ticks) inc) st)
      = HeaderTimeout)).
Proof.
  intros Hexp result.
  pose proof (wait_header_returns deadline (now t0) ticks rx k tk Hexp) as Hret.
  fold result in Hret.
  split; [intros Heq; rewrite Heq in Hret; exact Hret |].
  split; [intros rx' at_time rest Heq; rewrite Heq in Hret; exact Hret |].
  split; [intros rx' rest Heq; rewrite Heq in Hret; exact Hret |].
  split; [exact (wait_header_quiet deadline (now t0) ticks rx k tk Hexp) |].
  split; intros -> inc st.
  - pose proof (wait_header_returns _ _ ticks (arrived t0) k tk Hexp) as Hr.
    pose proof (wait_header_quiet _ _ ticks (arrived t0) k tk Hexp) as Hq.
    rewrite requestSensorData_summary. unfold wifi_cycle_summary.
    cbn [observations]. change Wifi.SYNC_DEADLINE with 500.
    destruct (wait_header 500 (now t0) (arrived t0) ticks)
      as [rx' rest | rx' at_time rest |].
    + split.
      * cbv zeta. destruct (Nat.eqb _ _); discriminate.
      * intros Hquiet. destruct (Hq Hquiet) as [? ?]. discriminate.
    + split; [discriminate | reflexivity].
    + destruct Hr.
  - pose proof (wait_header_returns _ _ ticks (arrived t0) k tk Hexp) as Hr.
    pose proof (wait_header_quiet _ _ ticks (arrived t0) k tk Hexp) as Hq.
    rewrite poll_summary. unfold standalone_poll_summary.
    cbn [observations]. change Standalone.SYNC_DEADLINE with 1000.
    destruct (wait_header 1000 (now t0) (arrived t0) ticks)
      as [rx' rest | rx' at_time rest |].
    + split.
      * cbv zeta. destruct (Nat.eqb _ _); discriminate.
      * intros Hquiet. destruct (Hq Hquiet) as [? ?]. discriminate.
    + split; [discriminate | reflexivity].
    + destruct Hr.
Qed.

Lemma header_wait_bounded_witness :
  expires_at 500 (now (Tick [] 0)) expiry_ticks 2 (Tick [] 500) /\
  wait_header 500 (now (Tick [] 0)) [] expiry_ticks <> Exhausted /\
  (forall rx' at_time rest,
     wait_header 500 (now (Tick [] 0)) [] expiry_ticks
     = TimedOut rx' at_time rest ->
     at_time = now (Tick [] 500) /\ rest = drop 3 expiry_ticks).
Proof.
  assert (H : expires_at 500 (now (Tick [] 0)) expiry_ticks 2 (Tick [] 500)).
  { split; [reflexivity |]. split; [vm_compute; discriminate |].
    intros j tj Hj Htj. unfold in_time.
    destruct j as [| [| j]]; [| | lia];
      injection Htj as <-; vm_compute; reflexivity. }
  exact (conj H
           (conj (proj1 (header_wait_bounded 500 (Tick [] 0) [] expiry_ticks 2
                           (Tick [] 500) H))
                 (proj1 (proj2 (header_wait_bounded 500 (Tick [] 0) []
                                  expiry_ticks 2 (Tick [] 500) H))))).
Defined.

(** ** Decoding *)

(** C2. For every raw frame and every pixel index [i < 768], with [lo] and
    [hi] the bytes at [2i] and [2i+1] and [r] the signed 16-bit little-endian
    integer they hold: when [r / 100] lies strictly inside (-40, 300), that
    is [-4000 < r < 30000], cell [i] becomes exactly [t = r / 100.0] (the
    binary32 value the sketch computes), and otherwise cell [i] keeps the
    value it had. The test the sketch makes on [t] is that test on [r]. *)
Theorem decodeFrame_pixel (rawData : list byte) (frame : list spec_float)
    (i : nat) (lo hi : byte) (old : spec_float) :
  (i < PIXELS)%nat ->
  rawData !! (i * 2)%nat = Some lo ->
  rawData !! (i * 2 + 1)%nat = Some hi ->
  frame !! i = Some old ->
  let r := int16_le lo hi in
  (-4000 < r < 30000 -> decodeFrame rawData frame !! i = Some (celsius r)) /\
  (r <= -4000 \/ 30000 <= r -> decodeFrame rawData frame !! i = Some old) /\
  plausible (celsius r) = in_range r.
Proof.
  intros Hi Hlo Hhi Hold r.
  assert (Htest : plausible (celsius r) = in_range r)
    by (apply plausible_in_range, int16_le_range).
  assert (Hcell : decodeFrame rawData frame !! i
                  = Some (if in_range r then celsius r else old)).
  { rewrite decodeFrame_lookup by exact Hi. rewrite Hold. cbn [fmap option_fmap option_map].
    unfold decode_cell, pixel_raw.
    rewrite (sample16_lookup _ _ _ _ _ Hlo Hhi). fold r.
    rewrite Htest. reflexivity. }
  split; [| split; [| exact Htest]].
  - intros Hin. rewrite Hcell. unfold in_range.
    destruct (Z.ltb_spec (-4000) r); [| lia].
    destruct (Z.ltb_spec r 30000); [reflexivity | lia].
  - intros Hout. rewrite Hcell. unfold in_range.
    destruct (Z.ltb_spec (-4000) r); [| reflexivity].
    destruct (Z.ltb_spec r 30000); [lia | reflexivity].
Qed.

Lemma decodeFrame_pixel_witness :
  (0 < PIXELS)%nat /\
  sample_frame !! (0 * 2)%nat = Some x0a /\
  sample_frame !! (0 * 2 + 1)%nat = Some x0a /\
  replicate PIXELS FP.zero !! 0%nat = Some FP.zero /\
  (-4000 < int16_le x0a x0a < 30000 ->
   decodeFrame sample_frame (replicate PIXELS FP.zero) !! 0%nat
   = Some (celsius (int16_le x0a x0a))).
Proof.
  assert (H1 : (0 < PIXELS)%nat) by (unfold PIXELS; lia).
  assert (H2 : sample_frame !! (0 * 2)%nat = Some x0a) by reflexivity.
  assert (H3 : sample_frame !! (0 * 2 + 1)%nat = Some x0a) by reflexivity.
  assert (H4 : replicate PIXELS FP.zero !! 0%nat = Some FP.zero) by reflexivity.
  exact (conj H1 (conj H2 (conj H3 (conj H4
           (proj1 (decodeFrame_pixel sample_frame (replicate PIXELS FP.zero)
                     0 x0a x0a FP.zero H1 H2 H3 H4)))))).
Defined.

(** C3, as stated, fails: the reading -4000 (-40.00 degrees) is inside
    [-40, 300) but the decoder does not write it; the cell keeps the 0.0 it
    had after [setup()]. *)
Lemma minus_40_not_written :
  pixel_raw minus_40_frame 0 = -4000 /\
  celsius (-4000) = SFopp (float_of_int 40) /\
  decodeFrame minus_40_frame (Wifi.frame (Wifi.setup Wifi.boot)) !! 0%nat
  = Some FP.zero /\
  decodeFrame minus_40_frame (Wifi.frame (Wifi.setup Wifi.boot)) !! 0%nat
  <> Some (celsius (-4000)).
Proof. vm_compute. repeat split. discriminate. Qed.

(** C3, amended to the open range. Starting from the grid of [setup()] and
    after any series of decoded frames, the grid has its 768 cells, and on
    the next frame each cell takes the new value [r / 100.0] when the
    reading [r] has [-4000 < r < 30000] and keeps its previous value
    otherwise (so at -4000, as at 30000); the value it then holds passes the
    filter itself, so it is a finite number (never NaN) strictly inside
    (-40, 300). *)
Theorem grid_invariant (st : Wifi.state) (frames : list (list byte))
    (rawData : list byte) (i : nat) :
  length (Wifi.frame st) = PIXELS ->
  (i < PIXELS)%nat ->
  let before := decode_all frames (Wifi.frame (Wifi.setup st)) in
  let after := decodeFrame rawData before in
  let r := pixel_raw rawData i in
  length after = PIXELS /\
  exists old new,
    before !! i = Some old /\ after !! i = Some new /\
    new = (if in_range r then celsius r else old) /\
    plausible new = true /\ FP.finite new = true.
Proof.
  intros Hlen Hi before after r.
  assert (Hok : grid_ok before).
  { apply decode_all_grid_ok. rewrite setup_frame by exact Hlen.
    apply initial_grid_ok. }
  destruct Hok as [Hblen Hball].
  split; [unfold after; rewrite decodeFrame_length; exact Hblen |].
  destruct (lookup_lt_is_Some_2 before i) as [old Hold]; [lia |].
  exists old, (decode_cell rawData i old).
  assert (Hp : plausible (decode_cell rawData i old) = true).
  { apply decode_cell_plausible.
    exact (Forall_lookup_1 _ _ _ _ Hball Hold). }
  split; [exact Hold |].
  split; [unfold after; rewrite decodeFrame_lookup by exact Hi;
          rewrite Hold; reflexivity |].
  split; [| split; [exact Hp | apply plausible_finite, Hp]].
  pose proof (plausible_in_range (pixel_raw rawData i)
                (sample16_range rawData (i * 2)%nat (i * 2 + 1)%nat))
    as Htest.
  unfold decode_cell. rewrite Htest. reflexivity.
Qed.

Lemma grid_invariant_witness :
  length (Wifi.frame Wifi.boot) = PIXELS /\ (1 < PIXELS)%nat /\
  length (decodeFrame sample_frame
            (decode_all [sample_frame] (Wifi.frame (Wifi.setup Wifi.boot))))
  = PIXELS.
Proof.
  assert (H1 : length (Wifi.frame Wifi.boot) = PIXELS) by reflexivity.
  assert (H2 : (1 < PIXELS)%nat) by (unfold PIXELS; lia).
  exact (conj H1 (conj H2
           (proj1 (grid_invariant Wifi.boot [sample_frame] sample_frame 1
                     H1 H2)))).
Defined.

(** C4, as stated, fails for the WebSocket sketches: their decode step yields
    the grid and nothing else. Two cycles whose frames carry different
    ambient temperatures leave the same grid and the same output behind. *)
Lemma wifi_cycle_drops_ambient :
  celsius (int16_le x00 x00) <> celsius (int16_le x39 x09) /\
  fst (Wifi.requestSensorData answer_cold (Wifi.with_clients [1%nat] Wifi.boot))
  = Success /\
  fst (Wifi.requestSensorData answer_warm (Wifi.with_clients [1%nat] Wifi.boot))
  = Success /\
  Wifi.frame (snd (Wifi.requestSensorData answer_cold
                     (Wifi.with_clients [1%nat] Wifi.boot)))
  = Wifi.frame (snd (Wifi.requestSensorData answer_warm
                       (Wifi.with_clients [1%nat] Wifi.boot))) /\
  Wifi.out (snd (Wifi.requestSensorData answer_cold
                   (Wifi.with_clients [1%nat] Wifi.boot)))
  = Wifi.out (snd (Wifi.requestSensorData answer_warm
                     (Wifi.with_clients [1%nat] Wifi.boot))).
Proof. vm_compute. repeat split. discriminate. Qed.

(** C4, amended to the sketch that has it. In the standalone sketch, for
    every raw frame with bytes [lo] and [hi] at 1536 and 1537, [decodeAndShow]
    yields the ambient temperature [r / 100.0] for the signed 16-bit
    little-endian [r] of the pair, whether or not it would pass the pixel
    filter, next to the same grid as [decodeFrame]; a successful cycle
    prints it. The WebSocket sketches decode the grid only. *)
Theorem decodeAndShow_ambient (rawData : list byte) (frame : list spec_float)
    (lo hi : byte) :
  rawData !! 1536%nat = Some lo ->
  rawData !! 1537%nat = Some hi ->
  shown_ta (decodeAndShow rawData frame) = celsius (int16_le lo hi) /\
  -32768 <= int16_le lo hi <= 32767 /\
  shown_frame (decodeAndShow rawData frame) = decodeFrame rawData frame /\
  forall env st st',
    Standalone.poll env st = (Success, st') ->
    Standalone.rawData st' = rawData ->
    exists lo' hi',
      last (Standalone.out st')
      = Some (PrintStats (celsius (int16_le lo hi)) lo' hi').
Proof.
  intros Hlo Hhi.
  assert (Hta : forall f, shown_ta (decodeAndShow rawData f)
                          = celsius (int16_le lo hi)).
  { intros f. rewrite decodeAndShow_ta, (sample16_lookup _ _ _ _ _ Hlo Hhi).
    reflexivity. }
  split; [apply Hta |].
  split; [apply int16_le_range |].
  split; [apply decodeAndShow_frame |].
  intros env st st'. rewrite poll_summary. unfold standalone_poll_summary.
  destruct (observations env) as [| t0 ticks']; [discriminate |].
  destruct (wait_header _ _ _ _); [| discriminate ..].
  cbv zeta. destruct (Nat.eqb _ _); [| discriminate].
  intros [= <-]. unfold standalone_after.
  cbn [Standalone.out Standalone.rawData]. intros Hraw.
  rewrite Hraw, Hta.
  match goal with
  | |- context [?o ++ ?d :: ?w :: [?p]] =>
      change (o ++ d :: w :: [p]) with (o ++ [d; w] ++ [p])
  end.
  rewrite app_assoc, last_snoc. eauto.
Qed.

Lemma decodeAndShow_ambient_witness :
  hot_ambient_frame !! 1536%nat = Some xff /\
  hot_ambient_frame !! 1537%nat = Some x7f /\
  shown_ta (decodeAndShow hot_ambient_frame (replicate PIXELS FP.zero))
  = celsius (int16_le xff x7f) /\
  plausible (celsius (int16_le xff x7f)) = false.
Proof.
  assert (H1 : hot_ambient_frame !! 1536%nat = Some xff)
    by (vm_compute; reflexivity).
  assert (H2 : hot_ambient_frame !! 1537%nat = Some x7f)
    by (vm_compute; reflexivity).
  assert (H3 : plausible (celsius (int16_le xff x7f)) = false)
    by (vm_compute; reflexivity).
  exact (conj H1 (conj H2
           (conj (proj1 (decodeAndShow_ambient hot_ambient_frame
                           (replicate PIXELS FP.zero) xff x7f H1 H2))
                 H3))).
Defined.

(** C10. Two raw frames that agree on bytes 0 to 1535 decode, from the same
    grid, to the same grid, and the payload broadcast for them is the same,
    whoever is connected: nothing past byte 1535 reaches the output of the
    WebSocket sketches. *)
Theorem trailer_noninterference (rawData1 rawData2 : list byte)
    (frame : list spec_float) (clients : list nat) :
  take 1536 rawData1 = take 1536 rawData2 ->
  decodeFrame rawData1 frame = decodeFrame rawData2 frame /\
  frame_bytes (decodeFrame rawData1 frame)
  = frame_bytes (decodeFrame rawData2 frame) /\
  broadcastBIN clients (frame_bytes (decodeFrame rawData1 frame))
  = broadcastBIN clients (frame_bytes (decodeFrame rawData2 frame)).
Proof.
  intros Heq.
  rewrite (decodeFrame_trailer rawData1 rawData2 frame Heq).
  repeat split.
Qed.

Lemma trailer_noninterference_witness :
  take 1536 sample_frame = take 1536 sample_frame' /\
  decodeFrame sample_frame (replicate PIXELS FP.zero)
  = decodeFrame sample_frame' (replicate PIXELS FP.zero).
Proof.
  assert (H : take 1536 sample_frame = take 1536 sample_frame')
    by (vm_compute; reflexivity).
  exact (conj H
           (proj1 (trailer_noninterference sample_frame sample_frame'
                     (replicate PIXELS FP.zero) [1%nat; 2%nat] H))).
Defined.

(** ** The poll cycle *)

(** C5. When the header was matched but the bytes then obtained (what was
    left in the buffer and what still arrived before the read gave up) are
    fewer than 1540, the cycle ends as [ShortRead n] with [n] their number; it
    reports [n], does not decode, broadcasts nothing, and leaves every cell
    of the grid as it was. *)
Theorem short_read_discards_cycle (env : cycle_env) (st : Wifi.state)
    (t0 : tick) (ticks' : list tick) (rx' : list byte) (rest : list tick) :
  observations env = t0 :: ticks' ->
  wait_header Wifi.SYNC_DEADLINE (now t0) (arrived t0) ticks'
  = Matched rx' rest ->
  (length (rx' ++ incoming env) < FRAME_BYTES)%nat ->
  let n := length (rx' ++ incoming env) in
  fst (Wifi.requestSensorData env st) = ShortRead n /\
  Wifi.frame (snd (Wifi.requestSensorData env st)) = Wifi.frame st /\
  Wifi.out (snd (Wifi.requestSensorData env st))
  = Wifi.out st ++ [SensorDrain (Wifi.rx st); SensorWrite query_command;
                    PrintIncomplete n].
Proof.
  intros Hobs Hwait Hshort n.
  rewrite requestSensorData_summary. unfold wifi_cycle_summary.
  rewrite Hobs, Hwait. cbv zeta.
  rewrite take_ge by lia. fold n.
  destruct (Nat.eqb_spec n FRAME_BYTES) as [Heq | _]; [lia |].
  repeat split.
Qed.

Lemma short_read_discards_cycle_witness :
  observations stalled_answer = Tick [] 0 :: [Tick header 1; Tick [] 2] /\
  wait_header Wifi.SYNC_DEADLINE (now (Tick [] 0)) (arrived (Tick [] 0))
    [Tick header 1; Tick [] 2] = Matched [] [Tick [] 2] /\
  (length ([] ++ incoming stalled_answer) < FRAME_BYTES)%nat /\
  fst (Wifi.requestSensorData stalled_answer Wifi.boot)
  = ShortRead (length ([] ++ incoming stalled_answer)) /\
  length ([] ++ incoming stalled_answer) = 1000%nat.
Proof.
  assert (H1 : observations stalled_answer
               = Tick [] 0 :: [Tick header 1; Tick [] 2]) by reflexivity.
  assert (H2 : wait_header Wifi.SYNC_DEADLINE (now (Tick [] 0))
                 (arrived (Tick [] 0)) [Tick header 1; Tick [] 2]
               = Matched [] [Tick [] 2]) by (vm_compute; reflexivity).
  assert (H3 : (length ([] ++ incoming stalled_answer) < FRAME_BYTES)%nat)
    by (vm_compute; lia).
  assert (H4 : length ([] ++ incoming stalled_answer) = 1000%nat)
    by (vm_compute; reflexivity).
  exact (conj H1 (conj H2 (conj H3
           (conj (proj1 (short_read_discards_cycle stalled_answer Wifi.boot
                           (Tick [] 0) [Tick header 1; Tick [] 2] []
                           [Tick [] 2] H1 H2 H3))
                 H4)))).
Defined.


(** C8, as stated, fails at the interval itself: 1000 ms after the last poll
    the test [millis() - lastFetch > 1000] is false, and the pass of [loop()]
    starts no cycle. *)
Lemma no_cycle_at_the_interval :
  elapsed 1000 (Wifi.lastFetch Wifi.boot) = Wifi.POLL_INTERVAL /\
  Wifi.loop (Wifi.LoopEnv [] 1000 1000 answer_cold) Wifi.boot
  = (None, Wifi.boot).
Proof. split; reflexivity. Qed.

(** C8, amended. In the WebSocket sketches a pass of [loop()] starts a cycle
    exactly when more than 1000 ms (on the 32-bit clock) have passed since
    [lastFetch]; it then sets [lastFetch] to the reading of [millis()] taken
    at that moment, and the cycle, whatever its outcome, leaves it there.
    Otherwise the pass changes nothing but the list of clients. The
    standalone sketch keeps no timestamp: every pass of its [loop()] runs a
    cycle and, once the cycle is over, ends with [delay(5000)]. *)
Theorem poll_schedule (env : Wifi.loop_env) (st : Wifi.state)
    (env' : cycle_env) (st' : Standalone.state) :
  let waited := elapsed (Wifi.test_time env) (Wifi.lastFetch st) in
  let started :=
    Wifi.with_lastFetch (Wifi.fetch_time env)
      (Wifi.with_clients (Wifi.connected env) st) in
  (1000 < waited ->
   Wifi.loop env st
   = (Some (fst (Wifi.requestSensorData (Wifi.cycle env) started)),
      snd (Wifi.requestSensorData (Wifi.cycle env) started))
   /\ Wifi.lastFetch (snd (Wifi.loop env st)) = Wifi.fetch_time env) /\
  (waited <= 1000 ->
   Wifi.loop env st = (None, Wifi.with_clients (Wifi.connected env) st)) /\
  (exists later,
     Standalone.out (snd (Standalone.loop env' st'))
     = Standalone.out st' ++ SensorDrain (Standalone.rx st')
                             :: SensorWrite query_command :: later
     /\ (fst (Standalone.loop env' st') <> Unfinished ->
         last later = Some (Delay 5000))).
Proof.
  intros waited started. split; [| split].
  - intros Hlt. unfold Wifi.loop.
    change (Wifi.lastFetch (Wifi.with_clients (Wifi.connected env) st))
      with (Wifi.lastFetch st).
    fold waited. unfold Wifi.POLL_INTERVAL.
    destruct (Z.ltb_spec 1000 waited) as [_ | Hle]; [| lia].
    fold started.
    pose proof (wifi_cycle_lastFetch (Wifi.cycle env) started) as Hkeep.
    destruct (Wifi.requestSensorData (Wifi.cycle env) started) as [o st1].
    split; [reflexivity | exact Hkeep].
  - intros Hle. unfold Wifi.loop.
    change (Wifi.lastFetch (Wifi.with_clients (Wifi.connected env) st))
      with (Wifi.lastFetch st).
    fold waited. unfold Wifi.POLL_INTERVAL.
    destruct (Z.ltb_spec 1000 waited) as [Hlt | _]; [lia | reflexivity].
  - destruct (standalone_loop_out env' st') as (later & Hout & _ & Hdelay).
    exists later. split; [exact Hout | exact Hdelay].
Qed.

(** * Further properties *)

(** ** The order of the floats *)

Lemma lt_key (x y : spec_float) :
  FP.lt x y = true <->
  not_nan x /\ not_nan y /\ key_lt (order_key x) (order_key y).
Proof.
  unfold FP.lt, SFltb, not_nan.
  destruct x as [sx | sx | | sx mx ex], y as [sy | sy | | sy my ey];
    try destruct sx; try destruct sy; cbn [SFcompare order_key key_lt];
    try (split; [discriminate | intros (? & ? & ?); try congruence; lia]);
    try (split; [intros _; repeat split; try discriminate; lia | reflexivity]).
  - (* both negative *)
    destruct (Z.compare_spec ex ey);
      [change (Pos.compare_cont Eq mx my) with (Pos.compare mx my);
       destruct (Pos.compare_spec mx my) |..]; cbn [CompOpp];
      (split; [try discriminate; intros _; repeat split; try discriminate; lia
              | try reflexivity; intros (_ & _ & ?); lia]).
  - (* both positive *)
    destruct (Z.compare_spec ex ey);
      [change (Pos.compare_cont Eq mx my) with (Pos.compare mx my);
       destruct (Pos.compare_spec mx my) |..];
      (split; [try discriminate; intros _; repeat split; try discriminate; lia
              | try reflexivity; intros (_ & _ & ?); lia]).
Qed.

Lemma lt_irrefl (x : spec_float) : FP.lt x x = false.
Proof.
  destruct (FP.lt x x) eqn:H; [| reflexivity].
  apply lt_key in H as (_ & _ & H).
  destruct (order_key x) as [[c e] m]. cbn in H. lia.
Qed.

Lemma lt_trans (x y z : spec_float) :
  FP.lt x y = true -> FP.lt y z = true -> FP.lt x z = true.
Proof.
  intros Hxy Hyz.
  apply lt_key in Hxy as (Hx & Hy & Hxy). apply lt_key in Hyz as (_ & Hz & Hyz).
  apply lt_key. split; [exact Hx |]. split; [exact Hz |].
  destruct (order_key x) as [[c1 e1] m1], (order_key y) as [[c2 e2] m2],
    (order_key z) as [[c3 e3] m3].
  cbn in *. lia.
Qed.

Lemma lt_asym (x y : spec_float) : FP.lt x y = true -> FP.lt y x = false.
Proof.
  intros H. destruct (FP.lt y x) eqn:H'; [| reflexivity].
  pose proof (lt_trans x y x H H') as Hxx. rewrite lt_irrefl in Hxx.
  discriminate.
Qed.

(** ** Loops that keep a minimum and a maximum *)

Lemma stats_step_keeps (t c : spec_float) (s : stats) :
  within s c -> within (Basic.stats_step t s) c.
Proof.
  intros [Hmin Hmax]. unfold within, Basic.stats_step. cbn [minT maxT]. split.
  - destruct (FP.lt t (minT s)) eqn:Ht; [| exact Hmin].
    destruct (FP.lt c t) eqn:Hc; [| reflexivity].
    rewrite (lt_trans c t (minT s) Hc Ht) in Hmin. discriminate.
  - destruct (FP.lt (maxT s) t) eqn:Ht; [| exact Hmax].
    destruct (FP.lt t c) eqn:Hc; [| reflexivity].
    rewrite (lt_trans (maxT s) t c Ht Hc) in Hmax. discriminate.
Qed.

Lemma stats_step_self (t : spec_float) (s : stats) :
  within (Basic.stats_step t s) t.
Proof.
  unfold within, Basic.stats_step. cbn [minT maxT]. split.
  - destruct (FP.lt t (minT s)) eqn:Ht; [apply lt_irrefl | exact Ht].
  - destruct (FP.lt (maxT s) t) eqn:Ht; [apply lt_irrefl | exact Ht].
Qed.

Lemma running_keeps n : forall i pass val s c,
  within s c -> within (running n i pass val s) c.
Proof.
  induction n as [| n IH]; intros i pass val s c H; [exact H |].
  cbn [running]. apply IH. destruct (pass i); [| exact H].
  apply stats_step_keeps, H.
Qed.

(** Every value that passes is within the extremes at the end. *)
Lemma running_bounds n : forall i pass val s j,
  (i <= j < i + n)%nat -> pass j = true ->
  within (running n i pass val s) (val j).
Proof.
  induction n as [| n IH]; intros i pass val s j Hj Hp; [lia |].
  cbn [running]. destruct (decide (j = i)) as [-> | Hne].
  - rewrite Hp. apply running_keeps, stats_step_self.
  - apply IH; [lia | exact Hp].
Qed.

(** The extremes at the end are those at the start or values that passed. *)
Lemma running_attained n : forall i pass val s,
  (minT (running n i pass val s) = minT s \/
   exists j, (i <= j < i + n)%nat /\ pass j = true
             /\ minT (running n i pass val s) = val j) /\
  (maxT (running n i pass val s) = maxT s \/
   exists j, (i <= j < i + n)%nat /\ pass j = true
             /\ maxT (running n i pass val s) = val j).
Proof.
  induction n as [| n IH]; intros i pass val s; [split; left; reflexivity |].
  cbn [running].
  destruct (IH (S i) pass val
              (if pass i then Basic.stats_step (val i) s else s))
    as [Hmin Hmax].
  split.
  - destruct Hmin as [-> | (j & Hj & Hp & ->)];
      [| right; exists j; split; [lia | split; [exact Hp | reflexivity]]].
    destruct (pass i) eqn:Hp; [| left; reflexivity].
    unfold Basic.stats_step. cbn [minT].
    destruct (FP.lt (val i) (minT s)); [| left; reflexivity].
    right. exists i. split; [lia | split; [exact Hp | reflexivity]].
  - destruct Hmax as [-> | (j & Hj & Hp & ->)];
      [| right; exists j; split; [lia | split; [exact Hp | reflexivity]]].
    destruct (pass i) eqn:Hp; [| left; reflexivity].
    unfold Basic.stats_step. cbn [maxT].
    destruct (FP.lt (maxT s) (val i)); [| left; reflexivity].
    right. exists i. split; [lia | split; [exact Hp | reflexivity]].
Qed.

Lemma running_ext n : forall i pass pass' val val' s,
  (forall j, (i <= j < i + n)%nat -> pass j = pass' j) ->
  (forall j, (i <= j < i + n)%nat -> pass j = true -> val j = val' j) ->
  running n i pass val s = running n i pass' val' s.
Proof.
  induction n as [| n IH]; intros i pass pass' val val' s Hp Hv; [reflexivity |].
  cbn [running]. rewrite <- (Hp i) by lia.
  destruct (pass i) eqn:Hpi.
  - rewrite <- (Hv i) by (lia || exact Hpi).
    apply IH; intros j Hj; [apply Hp | apply Hv]; lia.
  - apply IH; intros j Hj; [apply Hp | apply Hv]; lia.
Qed.

(** The extremes of [decodeAndShow] are the running ones over the pixels
    that pass the filter. *)
Lemma show_loop_stats n : forall i rawData frame s,
  snd (show_loop n i rawData (frame, s))
  = running n i (passes rawData) (fun j => celsius (pixel_raw rawData j)) s.
Proof.
  induction n as [| n IH]; intros i rawData frame s; [reflexivity |].
  cbn [show_loop running]. unfold show_pixel, passes.
  fold (pixel_raw rawData i).
  destruct (plausible (celsius (pixel_raw rawData i))); apply IH.
Qed.

#[local] Transparent decodeAndShow.

Lemma decodeAndShow_stats_loop rawData frame :
  shown_stats (decodeAndShow rawData frame)
  = snd (show_loop PIXELS 0 rawData
           (frame, Stats (float_of_int 100) (float_of_int (-100)))).
Proof.
  unfold decodeAndShow. destruct (show_loop _ _ _ _). reflexivity.
Qed.

#[global] Opaque decodeAndShow.

Lemma decodeAndShow_stats rawData frame :
  shown_stats (decodeAndShow rawData frame)
  = running PIXELS 0 (passes rawData)
      (fun j => celsius (pixel_raw rawData j))
      (Stats (float_of_int 100) (float_of_int (-100))).
Proof.
  rewrite decodeAndShow_stats_loop. apply show_loop_stats.
Qed.

Lemma stats_loop_running n : forall i frame s,
  Basic.stats_loop n i frame s
  = running n i (fun _ => true) (fun j => frame !!! j) s.
Proof.
  induction n as [| n IH]; intros i frame s; [reflexivity |].
  cbn [Basic.stats_loop running]. apply IH.
Qed.

(** The minimum only goes down and the maximum only up. *)
Lemma running_min_keeps n : forall i pass val s c,
  FP.lt c (minT s) = false -> FP.lt c (minT (running n i pass val s)) = false.
Proof.
  induction n as [| n IH]; intros i pass val s c H; [exact H |].
  cbn [running]. apply IH. destruct (pass i); [| exact H].
  unfold Basic.stats_step. cbn [minT].
  destruct (FP.lt (val i) (minT s)) eqn:Ht; [| exact H].
  destruct (FP.lt c (val i)) eqn:Hc; [| reflexivity].
  rewrite (lt_trans c (val i) (minT s) Hc Ht) in H. discriminate.
Qed.

Lemma running_max_keeps n : forall i pass val s c,
  FP.lt (maxT s) c = false -> FP.lt (maxT (running n i pass val s)) c = false.
Proof.
  induction n as [| n IH]; intros i pass val s c H; [exact H |].
  cbn [running]. apply IH. destruct (pass i); [| exact H].
  unfold Basic.stats_step. cbn [maxT].
  destruct (FP.lt (maxT s) (val i)) eqn:Ht; [| exact H].
  destruct (FP.lt (val i) c) eqn:Hc; [| reflexivity].
  rewrite (lt_trans (maxT s) (val i) c Ht Hc) in H. discriminate.
Qed.

(** ** More on the decoder *)

(** Decoding a frame a second time changes nothing: what was written stays,
    what was kept is kept again. *)
Theorem decodeFrame_idempotent (rawData : list byte)
    (frame : list spec_float) :
  decodeFrame rawData (decodeFrame rawData frame) = decodeFrame rawData frame.
Proof.
  apply list_eq. intros i.
  destruct (decide (i < PIXELS)%nat) as [Hi | Hi].
  - rewrite !decodeFrame_lookup by exact Hi.
    destruct (frame !! i) as [old |]; [| reflexivity].
    cbn [fmap option_fmap option_map]. f_equal.
    unfold decode_cell. cbv zeta.
    destruct (plausible (celsius (pixel_raw rawData i))); reflexivity.
  - rewrite !decodeFrame_lookup_ge by lia. reflexivity.
Qed.

(** When every reading of a frame is in range the whole grid is rewritten:
    cell [i] is [r_i / 100.0], and nothing of the previous grid is left. *)
Theorem decodeFrame_overwrites (rawData : list byte)
    (frame1 frame2 : list spec_float) :
  length frame1 = PIXELS -> length frame2 = PIXELS ->
  (forall i, (i < PIXELS)%nat -> -4000 < pixel_raw rawData i < 30000) ->
  decodeFrame rawData frame1 = decodeFrame rawData frame2 /\
  forall i, (i < PIXELS)%nat ->
    decodeFrame rawData frame1 !! i = Some (celsius (pixel_raw rawData i)).
Proof.
  intros H1 H2 Hall.
  assert (Hcell : forall frame i, length frame = PIXELS -> (i < PIXELS)%nat ->
            decodeFrame rawData frame !! i
            = Some (celsius (pixel_raw rawData i))).
  { intros frame i Hlen Hi. rewrite decodeFrame_lookup by exact Hi.
    destruct (lookup_lt_is_Some_2 frame i) as [old ->]; [lia |].
    cbn [fmap option_fmap option_map]. f_equal. unfold decode_cell.
    pose proof (plausible_in_range (pixel_raw rawData i)
                  (sample16_range rawData (i * 2)%nat (i * 2 + 1)%nat))
      as Htest.
    cbv zeta. rewrite Htest. unfold in_range. specialize (Hall i Hi).
    destruct (Z.ltb_spec (-4000) (pixel_raw rawData i)); [| lia].
    destruct (Z.ltb_spec (pixel_raw rawData i) 30000); [reflexivity | lia]. }
  split; [| intros i Hi; apply Hcell; assumption].
  apply list_eq. intros i.
  destruct (decide (i < PIXELS)%nat) as [Hi | Hi].
  - rewrite !Hcell by assumption. reflexivity.
  - rewrite !lookup_ge_None_2 by (rewrite decodeFrame_length; lia).
    reflexivity.
Qed.

Lemma decodeFrame_overwrites_witness :
  length (replicate PIXELS FP.zero) = PIXELS /\
  length (replicate PIXELS (celsius 2570)) = PIXELS /\
  (forall i, (i < PIXELS)%nat ->
     -4000 < pixel_raw (replicate FRAME_BYTES x0a) i < 30000) /\
  decodeFrame (replicate FRAME_BYTES x0a) (replicate PIXELS FP.zero)
  = decodeFrame (replicate FRAME_BYTES x0a) (replicate PIXELS (celsius 2570)).
Proof.
  assert (H1 : length (replicate PIXELS FP.zero) = PIXELS)
    by apply length_replicate.
  assert (H2 : length (replicate PIXELS (celsius 2570)) = PIXELS)
    by apply length_replicate.
  assert (H3 : forall i, (i < PIXELS)%nat ->
             -4000 < pixel_raw (replicate FRAME_BYTES x0a) i < 30000).
  { intros i Hi. unfold pixel_raw, PIXELS, FRAME_BYTES in *.
    rewrite (sample16_lookup _ _ _ x0a x0a)
      by (apply lookup_replicate_2; lia).
    vm_compute. split; reflexivity. }
  exact (conj H1 (conj H2 (conj H3
           (proj1 (decodeFrame_overwrites (replicate FRAME_BYTES x0a)
                     _ _ H1 H2 H3))))).
Defined.

(** The report line of [decodeAndShow]: every reading that passes the filter
    lies within the MIN and MAX it prints; MIN is 100.0 or one of those
    readings, MAX is -100.0 or one of them; and since the minimum starts at
    100.0 the MIN printed is never above 100.0, whatever the pixels. *)
Theorem decodeAndShow_extremes (rawData : list byte)
    (frame : list spec_float) :
  let s := shown_stats (decodeAndShow rawData frame) in
  let t := fun i => celsius (pixel_raw rawData i) in
  (forall i, (i < PIXELS)%nat -> plausible (t i) = true -> within s (t i)) /\
  (minT s = float_of_int 100 \/
   exists i, (i < PIXELS)%nat /\ plausible (t i) = true /\ minT s = t i) /\
  (maxT s = float_of_int (-100) \/
   exists i, (i < PIXELS)%nat /\ plausible (t i) = true /\ maxT s = t i) /\
  FP.lt (float_of_int 100) (minT s) = false /\
  FP.lt (maxT s) (float_of_int (-100)) = false.
Proof.
  intros s t. unfold s. rewrite decodeAndShow_stats. fold t.
  split; [| split; [| split]].
  - intros i Hi Hp. apply (running_bounds PIXELS 0 (passes rawData) t);
      [lia | exact Hp].
  - destruct (running_attained PIXELS 0 (passes rawData) t
                (Stats (float_of_int 100) (float_of_int (-100))))
      as [[Hmin | (j & Hj & Hp & Hmin)] _]; [left; exact Hmin |].
    right. exists j. split; [lia | split; [exact Hp | exact Hmin]].
  - destruct (running_attained PIXELS 0 (passes rawData) t
                (Stats (float_of_int 100) (float_of_int (-100))))
      as [_ [Hmax | (j & Hj & Hp & Hmax)]]; [left; exact Hmax |].
    right. exists j. split; [lia | split; [exact Hp | exact Hmax]].
  - split.
    + apply running_min_keeps. reflexivity.
    + apply running_max_keeps. reflexivity.
Qed.

(** ** The conversion keeps the order of the readings *)

Lemma ladder_sound n : forall raw,
  ladder n raw (celsius (raw - 1)) = true ->
  forall k, (k < n)%nat ->
    binary32 (celsius (raw + Z.of_nat k)) /\
    FP.lt (celsius (raw + Z.of_nat k - 1)) (celsius (raw + Z.of_nat k)) = true.
Proof.
  induction n as [| n IH]; intros raw H k Hk; [lia |].
  cbn [ladder] in H. cbv zeta in H. rewrite celsius_by_25_correct in H.
  apply andb_prop in H as [H Hrest]. apply andb_prop in H as [Hvalid Hlt].
  destruct k as [| k].
  - rewrite Z.add_0_r. split; assumption.
  - replace (raw + Z.of_nat (S k)) with (raw + 1 + Z.of_nat k) by lia.
    apply IH; [| lia].
    replace (raw + 1 - 1) with raw by lia. exact Hrest.
Qed.

Lemma ladder_all : ladder (Z.to_nat 32768) 1 FP.zero = true.
Proof. vm_compute. reflexivity. Qed.

Lemma celsius_step (p : Z) :
  1 <= p <= 32768 ->
  binary32 (celsius p) /\ FP.lt (celsius (p - 1)) (celsius p) = true.
Proof.
  intros Hp.
  pose proof (ladder_sound (Z.to_nat 32768) 1 ladder_all
                (Z.to_nat (p - 1)) ltac:(lia)) as H.
  replace (1 + Z.of_nat (Z.to_nat (p - 1))) with p in H by lia.
  exact H.
Qed.

Lemma celsius_climbs (d : nat) : forall a,
  0 <= a -> a + 1 + Z.of_nat d <= 32768 ->
  FP.lt (celsius a) (celsius (a + 1 + Z.of_nat d)) = true.
Proof.
  induction d as [| d IH]; intros a Ha Hb.
  - destruct (celsius_step (a + 1 + Z.of_nat 0) ltac:(lia)) as [_ H].
    replace (a + 1 + Z.of_nat 0 - 1) with a in H by lia. exact H.
  - apply (lt_trans _ (celsius (a + 1 + Z.of_nat d))).
    + apply IH; lia.
    + destruct (celsius_step (a + 1 + Z.of_nat (S d)) ltac:(lia)) as [_ H].
      replace (a + 1 + Z.of_nat (S d) - 1) with (a + 1 + Z.of_nat d) in H
        by lia.
      exact H.
Qed.

Lemma celsius_lt_nonneg (a b : Z) :
  0 <= a -> a < b -> b <= 32768 -> FP.lt (celsius a) (celsius b) = true.
Proof.
  intros Ha Hab Hb.
  replace b with (a + 1 + Z.of_nat (Z.to_nat (b - a - 1))) by lia.
  apply celsius_climbs; lia.
Qed.

Lemma celsius_lt_neg (a b : Z) :
  -32768 <= a -> a < b -> b < 0 -> FP.lt (celsius a) (celsius b) = true.
Proof.
  intros Ha Hab Hb.
  destruct a as [| p | p]; [lia | lia |].
  destruct b as [| q | q]; [lia | lia |].
  rewrite !celsius_opp, lt_opp. apply celsius_lt_nonneg; lia.
Qed.

Lemma valid_binary_opp prec emax x :
  valid_binary prec emax (SFopp x) = valid_binary prec emax x.
Proof. destruct x; reflexivity. Qed.

Lemma celsius_binary32 (raw : Z) :
  -32768 <= raw <= 32767 -> binary32 (celsius raw).
Proof.
  intros Hr. unfold binary32. destruct raw as [| p | p].
  - reflexivity.
  - apply (celsius_step (Z.pos p)). lia.
  - rewrite celsius_opp, valid_binary_opp.
    apply (celsius_step (Z.pos p)). lia.
Qed.

Lemma celsius_lt (a b : Z) :
  -32768 <= a -> a < b -> b <= 32768 ->
  FP.lt (celsius a) (celsius b) = true.
Proof.
  intros Ha Hab Hb.
  destruct (Z_lt_le_dec b 0) as [Hneg | Hpos].
  - apply celsius_lt_neg; lia.
  - destruct (Z_lt_le_dec a 0) as [Ha0 | Ha0].
    + assert (Hmid : FP.lt (celsius (-1)) (celsius b) = true).
      { destruct (Z.eq_dec b 0) as [-> | Hb0]; [reflexivity |].
        apply (lt_trans _ (celsius 0)); [reflexivity |].
        apply celsius_lt_nonneg; lia. }
      destruct (Z.eq_dec a (-1)) as [-> | Hne]; [exact Hmid |].
      apply (lt_trans _ (celsius (-1))); [| exact Hmid].
      apply celsius_lt_neg; lia.
    + apply celsius_lt_nonneg; lia.
Qed.

(** Dividing by 100.0 and rounding to [float] keeps the order of the 16-bit
    readings, and nothing else: one temperature is below another exactly when
    its reading is, so no two readings share a temperature. *)
Theorem celsius_increasing (a b : Z) :
  -32768 <= a <= 32767 -> -32768 <= b <= 32767 ->
  (FP.lt (celsius a) (celsius b) = true <-> a < b) /\
  (celsius a = celsius b -> a = b).
Proof.
  intros Ha Hb.
  assert (Hiff : FP.lt (celsius a) (celsius b) = true <-> a < b).
  { split; [| intros Hab; apply celsius_lt; lia].
    intros Hlt. destruct (Z_lt_le_dec a b) as [Hab | Hba]; [exact Hab |].
    destruct (Z.eq_dec a b) as [-> | Hne].
    - rewrite lt_irrefl in Hlt. discriminate.
    - rewrite (lt_asym (celsius b) (celsius a)) in Hlt; [discriminate |].
      apply celsius_lt; lia. }
  split; [exact Hiff |].
  intros Heq. destruct (Z.lt_total a b) as [Hab | [Hab | Hab]].
  - apply celsius_lt in Hab; [| lia ..].
    rewrite Heq, lt_irrefl in Hab. discriminate.
  - exact Hab.
  - apply celsius_lt in Hab; [| lia ..].
    rewrite Heq, lt_irrefl in Hab. discriminate.
Qed.

Lemma celsius_increasing_witness :
  -32768 <= -1 <= 32767 /\ -32768 <= 2570 <= 32767 /\
  (FP.lt (celsius (-1)) (celsius 2570) = true <-> -1 < 2570).
Proof.
  assert (H1 : -32768 <= -1 <= 32767) by lia.
  assert (H2 : -32768 <= 2570 <= 32767) by lia.
  exact (conj H1 (conj H2 (proj1 (celsius_increasing (-1) 2570 H1 H2)))).
Defined.

(** ** The payload as the page reads it *)

Lemma digits2_pos_bounds (m : positive) :
  2 ^ (Z.pos (digits2_pos m) - 1) <= Z.pos m < 2 ^ Z.pos (digits2_pos m).
Proof.
  induction m as [p IH | p IH |]; cbn [digits2_pos].
  - rewrite Pos2Z.inj_succ, Pos2Z.inj_xI.
    replace (Z.succ (Z.pos (digits2_pos p)) - 1)
      with (Z.succ (Z.pos (digits2_pos p) - 1)) by lia.
    rewrite !Z.pow_succ_r by lia. destruct IH as [Hlo Hhi].
    revert Hlo Hhi. generalize (2 ^ (Z.pos (digits2_pos p) - 1)).
    generalize (2 ^ Z.pos (digits2_pos p)). intros; lia.
  - rewrite Pos2Z.inj_succ. change (Z.pos p~0) with (2 * Z.pos p).
    replace (Z.succ (Z.pos (digits2_pos p)) - 1)
      with (Z.succ (Z.pos (digits2_pos p) - 1)) by lia.
    rewrite !Z.pow_succ_r by lia. destruct IH as [Hlo Hhi].
    revert Hlo Hhi. generalize (2 ^ (Z.pos (digits2_pos p) - 1)).
    generalize (2 ^ Z.pos (digits2_pos p)). intros; lia.
  - split; [reflexivity | reflexivity].
Qed.

(** A finite binary32 value is subnormal (exponent -149, fewer than 24
    digits) or normal (24 digits). *)
Lemma binary32_finite (s : bool) (m : positive) (e : Z) :
  binary32 (S754_finite s m e) ->
  (Z.pos m < 8388608 /\ e = -149) \/
  (8388608 <= Z.pos m < 16777216 /\ -149 <= e <= 104).
Proof.
  unfold binary32, valid_binary, bounded, canonical_mantissa, fexp, emin.
  intros H. apply andb_prop in H as [Hc He].
  apply Z.eqb_eq in Hc. apply Z.leb_le in He.
  pose proof (digits2_pos_bounds m) as [Hlo Hhi].
  destruct (Z_lt_le_dec (Z.pos (digits2_pos m)) 24) as [Hd | Hd].
  - left. split; [| lia].
    assert (Hp : 2 ^ Z.pos (digits2_pos m) <= 2 ^ 23)
      by (apply Z.pow_le_mono_r; lia).
    change (2 ^ 23) with 8388608 in Hp. lia.
  - right. assert (Hd' : Z.pos (digits2_pos m) = 24) by lia.
    rewrite Hd' in Hlo, Hhi.
    change (2 ^ (24 - 1)) with 8388608 in Hlo.
    change (2 ^ 24) with 16777216 in Hhi. lia.
Qed.

(** The three fields of a 32-bit pattern. *)
Lemma word_fields (sb : bool) (E M : Z) :
  0 <= E < 256 -> 0 <= M < 8388608 ->
  let w := (if sb then 2147483648 else 0) + (E * 8388608 + M) in
  (2147483648 <=? w) = sb /\ (w / 8388608) mod 256 = E /\
  w mod 8388608 = M /\ 0 <= w < 4294967296.
Proof.
  intros HE HM w.
  assert (Hw : w = ((if sb then 256 else 0) + E) * 8388608 + M)
    by (unfold w; destruct sb; lia).
  assert (Hq : w / 8388608 = (if sb then 256 else 0) + E).
  { symmetry. apply (Z.div_unique w 8388608 _ M); lia. }
  split; [| split; [| split]].
  - unfold w. destruct sb; [apply Z.leb_le | apply Z.leb_gt]; lia.
  - rewrite Hq. symmetry.
    apply (Z.mod_unique _ 256 (if sb then 1 else 0) E); [lia |].
    destruct sb; lia.
  - symmetry. apply (Z.mod_unique w 8388608 ((if sb then 256 else 0) + E) M);
      lia.
  - unfold w. destruct sb; lia.
Qed.

Lemma bits32_range (x : spec_float) :
  binary32 x -> 0 <= FP.bits32 x < 4294967296.
Proof.
  intros Hx. destruct x as [s | s | | s m e]; cbn [FP.bits32].
  - destruct s; lia.
  - destruct s; lia.
  - lia.
  - destruct (binary32_finite s m e Hx) as [[Hm He] | [Hm He]].
    + destruct (Z.ltb_spec (Z.pos m) 8388608); [| lia]. destruct s; lia.
    + destruct (Z.ltb_spec (Z.pos m) 8388608); [lia |]. destruct s; lia.
Qed.

(** Reading back the bit pattern of a binary32 value gives the value. *)
Lemma float_of_bits_bits32 (x : spec_float) :
  binary32 x -> Page.float_of_bits (FP.bits32 x) = x.
Proof.
  intros Hx. destruct x as [s | s | | s m e].
  - destruct s; reflexivity.
  - destruct s; reflexivity.
  - reflexivity.
  - cbn [FP.bits32].
    destruct (binary32_finite s m e Hx) as [[Hm He] | [Hm He]].
    + destruct (Z.ltb_spec (Z.pos m) 8388608) as [_ |]; [| lia].
      destruct (word_fields s 0 (Z.pos m) ltac:(lia) ltac:(lia))
        as (Hs & HE & HM & _).
      cbv zeta in Hs, HE, HM. rewrite Z.mul_0_l, Z.add_0_l in Hs, HE, HM.
      unfold Page.float_of_bits. cbv zeta. rewrite Hs, HE, HM.
      cbn [Z.eqb]. subst e. reflexivity.
    + destruct (Z.ltb_spec (Z.pos m) 8388608) as [| _]; [lia |].
      destruct (word_fields s (e + 150) (Z.pos m - 8388608)
                  ltac:(lia) ltac:(lia)) as (Hs & HE & HM & _).
      cbv zeta in Hs, HE, HM.
      unfold Page.float_of_bits. cbv zeta. rewrite Hs, HE, HM.
      destruct (Z.eqb_spec (e + 150) 0); [lia |].
      destruct (Z.eqb_spec (e + 150) 255); [lia |].
      replace (Z.pos m - 8388608 + 8388608) with (Z.pos m) by lia.
      replace (e + 150 - 150) with e by lia.
      rewrite Pos2Z.id. reflexivity.
Qed.

Lemma word_of_float_bytes (w : Z) :
  0 <= w < 4294967296 ->
  Page.word_of_bytes (FP.byte_of_Z w) (FP.byte_of_Z (Z.shiftr w 8))
    (FP.byte_of_Z (Z.shiftr w 16)) (FP.byte_of_Z (Z.shiftr w 24)) = w.
Proof.
  intros Hw. unfold Page.word_of_bytes.
  rewrite !byte_val_of_Z, !Z.shiftr_div_pow2 by lia.
  change (2 ^ 8) with 256. change (2 ^ 16) with (256 * 256).
  change (2 ^ 24) with (256 * 256 * 256).
  rewrite <- !Z.div_div by lia.
  pose proof (Z.div_mod w 256 ltac:(lia)) as H0.
  pose proof (Z.div_mod (w / 256) 256 ltac:(lia)) as H1.
  pose proof (Z.div_mod (w / 256 / 256) 256 ltac:(lia)) as H2.
  pose proof (Z.mod_pos_bound w 256 ltac:(lia)) as B0.
  pose proof (Z.mod_pos_bound (w / 256) 256 ltac:(lia)) as B1.
  pose proof (Z.mod_pos_bound (w / 256 / 256) 256 ltac:(lia)) as B2.
  assert (H3 : 0 <= w / 256 / 256 / 256 < 256).
  { split; [repeat apply Z.div_pos; lia |].
    rewrite !Z.div_div by lia. apply Z.div_lt_upper_bound; lia. }
  rewrite (Z.mod_small (w / 256 / 256 / 256)) by exact H3.
  lia.
Qed.

Lemma floats_of_frame_bytes (frame : list spec_float) :
  Forall binary32 frame -> Page.floats_of_bytes (frame_bytes frame) = frame.
Proof.
  unfold frame_bytes. induction 1 as [| c frame Hc _ IH]; [reflexivity |].
  cbn [map concat]. unfold FP.float_bytes at 1.
  cbn [app Page.floats_of_bytes].
  rewrite word_of_float_bytes by (apply bits32_range, Hc).
  rewrite float_of_bits_bits32 by exact Hc. rewrite IH. reflexivity.
Qed.

Lemma floats_of_bytes_length (n : nat) : forall buffer,
  (length buffer < 4 * n)%nat ->
  length (Page.floats_of_bytes buffer) = (length buffer / 4)%nat.
Proof.
  induction n as [| n IH]; intros buffer Hn; [lia |].
  destruct buffer as [| b0 [| b1 [| b2 [| b3 rest]]]]; try reflexivity.
  cbn [Page.floats_of_bytes length]. rewrite IH by (cbn [length] in Hn; lia).
  change (S (S (S (S (length rest))))) with (4 + length rest)%nat.
  replace (4 + length rest)%nat with (length rest + 1 * 4)%nat by lia.
  rewrite Nat.div_add by lia. lia.
Qed.

(** The decoder keeps the grid in binary32 form. *)
Lemma decodeFrame_binary32 (rawData : list byte) (frame : list spec_float) :
  Forall binary32 frame -> Forall binary32 (decodeFrame rawData frame).
Proof.
  intros Hf. apply Forall_lookup. intros i c Hc.
  destruct (decide (i < PIXELS)%nat) as [Hi | Hi].
  - rewrite decodeFrame_lookup in Hc by exact Hi.
    destruct (frame !! i) as [old |] eqn:Hold; [| discriminate].
    cbn [fmap option_fmap option_map] in Hc. injection Hc as <-.
    pose proof (celsius_binary32 (pixel_raw rawData i)
                  (sample16_range rawData (i * 2)%nat (i * 2 + 1)%nat))
      as Hnew.
    unfold decode_cell. cbv zeta.
    destruct (plausible _).
    + exact Hnew.
    + exact (Forall_lookup_1 _ _ _ _ Hf Hold).
  - rewrite decodeFrame_lookup_ge in Hc by lia.
    exact (Forall_lookup_1 _ _ _ _ Hf Hc).
Qed.

(** The page gets back exactly the grid that was sent: for a grid of
    [float] values, [new Float32Array] of the broadcast payload succeeds and
    its elements are the cells, bit for bit. *)
Theorem payload_round_trip (frame : list spec_float) :
  Forall binary32 frame ->
  Page.Float32Array (frame_bytes frame) = Some frame.
Proof.
  intros Hf. unfold Page.Float32Array.
  rewrite frame_bytes_length.
  replace (4 * length frame)%nat with (length frame * 4)%nat by lia.
  rewrite Nat.Div0.mod_mul. cbn [Nat.eqb].
  rewrite floats_of_frame_bytes by exact Hf. reflexivity.
Qed.

Lemma payload_round_trip_witness :
  Forall binary32 [celsius 2570; celsius (-1); FP.zero] /\
  Page.Float32Array (frame_bytes [celsius 2570; celsius (-1); FP.zero])
  = Some [celsius 2570; celsius (-1); FP.zero].
Proof.
  assert (H : Forall binary32 [celsius 2570; celsius (-1); FP.zero])
    by (repeat constructor).
  exact (conj H (payload_round_trip _ H)).
Defined.

(** The page's size guard: a payload whose length is no multiple of 4 makes
    [new Float32Array] throw, any other payload that is not 3072 bytes long
    is ignored, and only a 3072-byte payload is ever drawn. *)
Theorem onMessage_size_guard (payload : list byte) :
  match Page.onMessage payload with
  | Page.Threw => (length payload mod 4 <> 0)%nat
  | Page.Ignored =>
      (length payload mod 4 = 0)%nat /\ length payload <> (4 * PIXELS)%nat
  | Page.Drew hues =>
      length payload = (4 * PIXELS)%nat /\ length hues = PIXELS
  end.
Proof.
  unfold Page.onMessage, Page.Float32Array.
  destruct (Nat.eqb_spec (length payload mod 4) 0) as [Hm | Hm];
    [| exact Hm].
  rewrite (floats_of_bytes_length (S (length payload))) by lia.
  pose proof (Nat.div_mod_eq (length payload) 4) as Hd.
  destruct (Nat.eqb_spec (length payload / 4) 768) as [Hq | Hq].
  - split; [unfold PIXELS; lia | reflexivity].
  - split; [exact Hm | unfold PIXELS; lia].
Qed.

(** ** The header wait, read backwards *)

Lemma arrivals_cons t ticks : arrivals (t :: ticks) = arrived t ++ arrivals ticks.
Proof. reflexivity. Qed.

(** The wait never invents or reorders bytes. When it reports the header, the
    bytes just before the buffer it leaves are 5A 5A 02 06, every observation
    it used was inside the deadline, and the buffer it leaves is exactly what
    followed the header; when it gives up, the buffer it leaves is a tail of
    what had been received and the observation that ended it was at or past
    the deadline; and it never leaves for another reason. *)
Theorem wait_header_sound (deadline startWait : Z) (ticks : list tick) :
  forall rx : list byte,
  match wait_header deadline startWait rx ticks with
  | Matched rx' rest =>
      exists used junk,
        ticks = used ++ rest /\ Forall (in_time deadline startWait) used /\
        rx ++ arrivals used = junk ++ header ++ rx'
  | TimedOut rx' at_time rest =>
      exists used t junk,
        ticks = used ++ t :: rest /\ at_time = now t /\
        deadline <= elapsed (now t) startWait /\
        Forall (in_time deadline startWait) used /\
        rx ++ arrivals (used ++ [t]) = junk ++ rx'
  | Exhausted => Forall (in_time deadline startWait) ticks
  end.
Proof.
  induction ticks as [| t ticks IH]; intros rx; [constructor |].
  cbn [wait_header]. cbv zeta.
  destruct (Z.ltb_spec (elapsed (now t) startWait) deadline) as [Hin | Hout].
  - assert (Hstep : forall rx1 drop1,
              rx ++ arrived t = drop1 ++ rx1 ->
              match wait_header deadline startWait rx1 ticks with
              | Matched rx' rest =>
                  exists used junk,
                    t :: ticks = used ++ rest /\
                    Forall (in_time deadline startWait) used /\
                    rx ++ arrivals used = junk ++ header ++ rx'
              | TimedOut rx' at_time rest =>
                  exists used t' junk,
                    t :: ticks = used ++ t' :: rest /\ at_time = now t' /\
                    deadline <= elapsed (now t') startWait /\
                    Forall (in_time deadline startWait) used /\
                    rx ++ arrivals (used ++ [t']) = junk ++ rx'
              | Exhausted => Forall (in_time deadline startWait) (t :: ticks)
              end).
    { intros rx1 drop1 Hsplit. specialize (IH rx1).
      destruct (wait_header deadline startWait rx1 ticks)
        as [rx' rest | rx' at_time rest |].
      - destruct IH as (used & junk & -> & Hused & Hbytes).
        exists (t :: used), (drop1 ++ junk).
        split; [reflexivity |]. split; [constructor; assumption |].
        rewrite arrivals_cons, app_assoc, Hsplit, <- !app_assoc, Hbytes.
        reflexivity.
      - destruct IH as (used & t' & junk & -> & Hat & Hexp & Hused & Hbytes).
        exists (t :: used), t', (drop1 ++ junk).
        split; [reflexivity |]. split; [exact Hat |]. split; [exact Hexp |].
        split; [constructor; assumption |].
        change ((t :: used) ++ [t']) with (t :: (used ++ [t'])).
        rewrite arrivals_cons, app_assoc, Hsplit, <- !app_assoc, Hbytes.
        reflexivity.
      - constructor; assumption. }
    destruct (Z.leb_spec 4 (Z.of_nat (length (rx ++ arrived t))))
      as [Hfour | Hfew].
    + destruct (match_header_cases (rx ++ arrived t) ltac:(lia))
        as [(more & Hrx & ->) | (c & more & _ & Hrx & ->)].
      * exists [t], []. split; [reflexivity |].
        split; [repeat constructor; exact Hin |].
        unfold arrivals. cbn [map concat]. rewrite app_nil_r. exact Hrx.
      * apply (Hstep more c). exact Hrx.
    + apply (Hstep (rx ++ arrived t) []). reflexivity.
  - exists [], t, []. split; [reflexivity |]. split; [reflexivity |].
    split; [lia |]. split; [constructor |].
    unfold arrivals. cbn [app map concat]. rewrite app_nil_r. reflexivity.
Qed.


(** The header test is only made with four bytes buffered: as long as fewer
    than four have been received, nothing is read from the buffer, so an
    answer cut short before its fourth byte is still there when the wait
    gives up. *)
Theorem short_answer_left_in_buffer (deadline startWait : Z)
    (ticks : list tick) : forall rx : list byte,
  (length (rx ++ arrivals ticks) < 4)%nat ->
  match wait_header deadline startWait rx ticks with
  | Matched _ _ => False
  | TimedOut rx' _ rest =>
      exists used, ticks = used ++ rest /\ rx' = rx ++ arrivals used
  | Exhausted => True
  end.
Proof.
  induction ticks as [| t ticks IH]; intros rx Hlen; [exact I |].
  cbn [wait_header]. cbv zeta.
  rewrite arrivals_cons, app_assoc in Hlen.
  destruct (Z.ltb_spec (elapsed (now t) startWait) deadline) as [Hin | Hout].
  - destruct (Z.leb_spec 4 (Z.of_nat (length (rx ++ arrived t))))
      as [Hfour | Hfew].
    { rewrite length_app in Hlen. lia. }
    specialize (IH (rx ++ arrived t) Hlen).
    destruct (wait_header deadline startWait (rx ++ arrived t) ticks)
      as [rx' rest | rx' at_time rest |]; [exact IH | | exact I].
    destruct IH as (used & -> & ->). exists (t :: used).
    split; [reflexivity |]. rewrite arrivals_cons, app_assoc. reflexivity.
  - exists [t]. split; [reflexivity |].
    unfold arrivals. cbn [map concat]. rewrite app_nil_r. reflexivity.
Qed.

Lemma short_answer_left_in_buffer_witness :
  (length ([x5a] ++ arrivals [Tick [x5a] 10; Tick [x02] 600]) < 4)%nat /\
  exists used,
    [Tick [x5a] 10; Tick [x02] 600] = used ++ [] /\
    [x5a; x5a; x02] = [x5a] ++ arrivals used.
Proof.
  assert (H : (length ([x5a] ++ arrivals [Tick [x5a] 10; Tick [x02] 600]) < 4)%nat)
    by (vm_compute; lia).
  exact (conj H
           (short_answer_left_in_buffer 500 0 [Tick [x5a] 10; Tick [x02] 600]
              [x5a] H)).
Defined.

(** ** The 32-bit clock *)

Lemma elapsed_wraps (t0 d : Z) :
  0 <= d < 2 ^ 32 -> elapsed ((t0 + d) mod 2 ^ 32) t0 = d.
Proof.
  intros Hd. unfold elapsed.
  rewrite Zminus_mod_idemp_l.
  replace (t0 + d - t0) with d by lia. apply Z.mod_small. exact Hd.
Qed.

(** The timers survive the roll-over of [millis()]: whatever [lastFetch]
    holds, a pass of [loop()] made [d] ms later (on the real clock, [d] below
    2^32) starts a cycle exactly when [d > 1000], also when the 32-bit
    counter has wrapped in between; and an observation made [d] ms after
    [startWait] is inside a deadline exactly when [d] is below it. *)
Theorem timers_survive_rollover (env : Wifi.loop_env) (st : Wifi.state)
    (d deadline startWait : Z) (t : tick) :
  0 <= d < 2 ^ 32 ->
  Wifi.test_time env = (Wifi.lastFetch st + d) mod 2 ^ 32 ->
  now t = (startWait + d) mod 2 ^ 32 ->
  (fst (Wifi.loop env st) = None <-> d <= 1000) /\
  (in_time deadline startWait t <-> d < deadline).
Proof.
  intros Hd Htest Hnow. split.
  - unfold Wifi.loop.
    change (Wifi.lastFetch (Wifi.with_clients (Wifi.connected env) st))
      with (Wifi.lastFetch st).
    rewrite Htest, elapsed_wraps by exact Hd. unfold Wifi.POLL_INTERVAL.
    destruct (Z.ltb_spec 1000 d) as [Hlt | Hle].
    + destruct (Wifi.requestSensorData _ _) as [o st1]. cbn [fst].
      split; [discriminate | lia].
    + cbn [fst]. split; [intros _; exact Hle | reflexivity].
  - unfold in_time. rewrite Hnow, elapsed_wraps by exact Hd. reflexivity.
Qed.

Lemma timers_survive_rollover_witness :
  0 <= 1001 < 2 ^ 32 /\
  Wifi.test_time (Wifi.LoopEnv [] 500 500 answer_cold)
  = (Wifi.lastFetch (Wifi.with_lastFetch 4294966795 Wifi.boot) + 1001)
    mod 2 ^ 32 /\
  now (Tick [] 500) = (4294966795 + 1001) mod 2 ^ 32 /\
  (fst (Wifi.loop (Wifi.LoopEnv [] 500 500 answer_cold)
          (Wifi.with_lastFetch 4294966795 Wifi.boot)) = None
   <-> 1001 <= 1000).
Proof.
  assert (H1 : 0 <= 1001 < 2 ^ 32) by (split; [lia | reflexivity]).
  assert (H2 : Wifi.test_time (Wifi.LoopEnv [] 500 500 answer_cold)
               = (Wifi.lastFetch (Wifi.with_lastFetch 4294966795 Wifi.boot)
                  + 1001) mod 2 ^ 32) by reflexivity.
  assert (H3 : now (Tick [] 500) = (4294966795 + 1001) mod 2 ^ 32)
    by reflexivity.
  exact (conj H1 (conj H2 (conj H3
           (proj1 (timers_survive_rollover
                     (Wifi.LoopEnv [] 500 500 answer_cold)
                     (Wifi.with_lastFetch 4294966795 Wifi.boot)
                     1001 500 4294966795 (Tick [] 500) H1 H2 H3))))).
Defined.

(** ** The arrays keep their shape *)

Lemma store_length (got rawData : list byte) :
  (length got <= length rawData)%nat ->
  length (store got rawData) = length rawData.
Proof.
  intros Hle. unfold store. rewrite length_app, length_drop. lia.
Qed.

Lemma store_full (got rawData : list byte) :
  length got = length rawData -> store got rawData = got.
Proof.
  intros Heq. unfold store. rewrite drop_ge by lia. apply app_nil_r.
Qed.

Lemma zero_grid_binary32 : Forall binary32 (replicate PIXELS FP.zero).
Proof. apply Forall_replicate. reflexivity. Qed.

Lemma wifi_cycle_arrays (env : cycle_env) (st : Wifi.state) :
  arrays_ok (Wifi.frame st) (Wifi.rawData st) ->
  arrays_ok (Wifi.frame (snd (Wifi.requestSensorData env st)))
    (Wifi.rawData (snd (Wifi.requestSensorData env st))).
Proof.
  intros (Hf & Hr & Hb). rewrite requestSensorData_summary.
  unfold wifi_cycle_summary.
  destruct (observations env) as [| t0 ticks]; [repeat split; assumption |].
  destruct (wait_header _ _ _ _) as [rx' rest | rx' at_time rest |];
    [| repeat split; assumption ..].
  cbv zeta.
  assert (Hstore : length (store (take FRAME_BYTES (rx' ++ incoming env))
                             (Wifi.rawData st)) = FRAME_BYTES).
  { rewrite store_length; [exact Hr |]. rewrite length_take. lia. }
  destruct (Nat.eqb _ _); cbn [snd wifi_after Wifi.frame Wifi.rawData].
  - split; [rewrite decodeFrame_length; exact Hf |].
    split; [exact Hstore | apply decodeFrame_binary32, Hb].
  - repeat split; assumption.
Qed.

(** In the WebSocket sketches the grid always has its 768 cells, each one a
    [float] value, and the raw buffer its 1540 bytes: [setup()], a cycle with
    any outcome and a pass of [loop()] all keep it so. *)
Theorem wifi_arrays_invariant (st : Wifi.state) :
  arrays_ok (Wifi.frame st) (Wifi.rawData st) ->
  arrays_ok (Wifi.frame (Wifi.setup st)) (Wifi.rawData (Wifi.setup st)) /\
  (forall env,
     arrays_ok (Wifi.frame (snd (Wifi.requestSensorData env st)))
       (Wifi.rawData (snd (Wifi.requestSensorData env st)))) /\
  (forall env,
     arrays_ok (Wifi.frame (snd (Wifi.loop env st)))
       (Wifi.rawData (snd (Wifi.loop env st)))).
Proof.
  intros Hok. split; [| split].
  - destruct Hok as (Hf & Hr & Hb). rewrite setup_frame by exact Hf.
    split; [apply length_replicate |].
    split; [exact Hr | exact zero_grid_binary32].
  - intros env. apply wifi_cycle_arrays, Hok.
  - intros env. unfold Wifi.loop.
    destruct (Wifi.POLL_INTERVAL <? _); [| exact Hok].
    pose proof (wifi_cycle_arrays (Wifi.cycle env)
                  (Wifi.with_lastFetch (Wifi.fetch_time env)
                     (Wifi.with_clients (Wifi.connected env) st)) Hok) as H.
    destruct (Wifi.requestSensorData _ _) as [o st1]. exact H.
Qed.

Lemma wifi_arrays_invariant_witness :
  arrays_ok (Wifi.frame Wifi.boot) (Wifi.rawData Wifi.boot) /\
  arrays_ok (Wifi.frame (Wifi.setup Wifi.boot))
    (Wifi.rawData (Wifi.setup Wifi.boot)).
Proof.
  assert (H : arrays_ok (Wifi.frame Wifi.boot) (Wifi.rawData Wifi.boot)).
  { split; [apply length_replicate |].
    split; [apply length_replicate | exact zero_grid_binary32]. }
  exact (conj H (proj1 (wifi_arrays_invariant Wifi.boot H))).
Defined.

(** The same in the standalone sketch, for a pass of its [loop()]. *)
Theorem standalone_arrays_invariant (env : cycle_env)
    (st : Standalone.state) :
  arrays_ok (Standalone.frame st) (Standalone.rawData st) ->
  arrays_ok (Standalone.frame (snd (Standalone.loop env st)))
    (Standalone.rawData (snd (Standalone.loop env st))).
Proof.
  intros (Hf & Hr & Hb). unfold Standalone.loop. rewrite poll_summary.
  unfold standalone_poll_summary.
  destruct (observations env) as [| t0 ticks]; [repeat split; assumption |].
  destruct (wait_header _ _ _ _) as [rx' rest | rx' at_time rest |];
    [| repeat split; assumption ..].
  cbv zeta.
  assert (Hstore : length (store (take FRAME_BYTES (rx' ++ incoming env))
                             (Standalone.rawData st)) = FRAME_BYTES).
  { rewrite store_length; [exact Hr |]. rewrite length_take. lia. }
  destruct (Nat.eqb _ _);
    cbn [snd standalone_after Standalone.emit Standalone.frame
         Standalone.rawData].
  - rewrite decodeAndShow_frame.
    split; [rewrite decodeFrame_length; exact Hf |].
    split; [exact Hstore | apply decodeFrame_binary32, Hb].
  - repeat split; assumption.
Qed.

Lemma standalone_arrays_invariant_witness :
  arrays_ok (Standalone.frame Standalone.boot)
    (Standalone.rawData Standalone.boot) /\
  arrays_ok (Standalone.frame (snd (Standalone.loop answer_warm Standalone.boot)))
    (Standalone.rawData (snd (Standalone.loop answer_warm Standalone.boot))).
Proof.
  assert (H : arrays_ok (Standalone.frame Standalone.boot)
                (Standalone.rawData Standalone.boot)).
  { split; [apply length_replicate |].
    split; [apply length_replicate | exact zero_grid_binary32]. }
  exact (conj H (standalone_arrays_invariant answer_warm Standalone.boot H)).
Defined.

(** ** The ways through a cycle *)

(** The complement of the short read: once the header is matched and at
    least 1540 bytes follow (buffered or still arriving), the cycle succeeds;
    the raw buffer then holds exactly the first 1540 of them, the bytes after
    those stay in the RX buffer, and the grid is the decoding of the new raw
    buffer over the old grid. *)
Theorem full_read_completes_cycle (env : cycle_env) (st : Wifi.state)
    (t0 : tick) (ticks' : list tick) (rx' : list byte) (rest : list tick) :
  observations env = t0 :: ticks' ->
  wait_header Wifi.SYNC_DEADLINE (now t0) (arrived t0) ticks'
  = Matched rx' rest ->
  (FRAME_BYTES <= length (rx' ++ incoming env))%nat ->
  length (Wifi.rawData st) = FRAME_BYTES ->
  let st' := snd (Wifi.requestSensorData env st) in
  fst (Wifi.requestSensorData env st) = Success /\
  Wifi.rawData st' = take FRAME_BYTES (rx' ++ incoming env) /\
  Wifi.rx st' = drop FRAME_BYTES (rx' ++ incoming env) /\
  Wifi.frame st'
  = decodeFrame (take FRAME_BYTES (rx' ++ incoming env)) (Wifi.frame st).
Proof.
  intros Hobs Hwait Hfull Hraw st'. unfold st'.
  rewrite requestSensorData_summary. unfold wifi_cycle_summary.
  rewrite Hobs, Hwait. cbv zeta.
  assert (Hlen : length (take FRAME_BYTES (rx' ++ incoming env)) = FRAME_BYTES)
    by (rewrite length_take; lia).
  rewrite Hlen, Nat.eqb_refl.
  rewrite store_full by (rewrite Hlen, Hraw; reflexivity).
  repeat split.
Qed.

Lemma full_read_completes_cycle_witness :
  observations answer_warm
  = hd (Tick [] 0) (observations answer_warm)
    :: tl (observations answer_warm) /\
  fst (Wifi.requestSensorData answer_warm Wifi.boot) = Success.
Proof.
  assert (H1 : observations answer_warm
               = hd (Tick [] 0) (observations answer_warm)
                 :: tl (observations answer_warm)) by reflexivity.
  assert (H2 : wait_header Wifi.SYNC_DEADLINE
                 (now (hd (Tick [] 0) (observations answer_warm)))
                 (arrived (hd (Tick [] 0) (observations answer_warm)))
                 (tl (observations answer_warm))
               = Matched (replicate 1536 x00 ++ [x39; x09; x00; x00]) [])
    by (vm_compute; reflexivity).
  assert (H3 : (FRAME_BYTES
                <= length ((replicate 1536 x00 ++ [x39; x09; x00; x00])
                           ++ incoming answer_warm))%nat)
    by (vm_compute; lia).
  assert (H4 : length (Wifi.rawData Wifi.boot) = FRAME_BYTES)
    by reflexivity.
  exact (conj H1
           (proj1 (full_read_completes_cycle answer_warm Wifi.boot _ _ _ _
                     H1 H2 H3 H4))).
Defined.

(** A cycle that finds no header is silent in the WebSocket sketches: grid
    and raw buffer stay as they were, and nothing is printed or broadcast
    after the query. *)
Theorem wifi_timeout_is_silent (env : cycle_env) (st : Wifi.state) :
  fst (Wifi.requestSensorData env st) = HeaderTimeout ->
  Wifi.frame (snd (Wifi.requestSensorData env st)) = Wifi.frame st /\
  Wifi.rawData (snd (Wifi.requestSensorData env st)) = Wifi.rawData st /\
  Wifi.out (snd (Wifi.requestSensorData env st))
  = Wifi.out st ++ [SensorDrain (Wifi.rx st); SensorWrite query_command].
Proof.
  rewrite requestSensorData_summary. unfold wifi_cycle_summary.
  destruct (observations env) as [| t0 ticks]; [discriminate |].
  destruct (wait_header _ _ _ _) as [rx' rest | rx' at_time rest |];
    [| intros _; repeat split | discriminate].
  cbv zeta. destruct (Nat.eqb _ _); discriminate.
Qed.

Lemma wifi_timeout_is_silent_witness :
  fst (Wifi.requestSensorData silent_sensor Wifi.boot) = HeaderTimeout /\
  Wifi.out (snd (Wifi.requestSensorData silent_sensor Wifi.boot))
  = Wifi.out Wifi.boot
    ++ [SensorDrain (Wifi.rx Wifi.boot); SensorWrite query_command].
Proof.
  assert (H : fst (Wifi.requestSensorData silent_sensor Wifi.boot)
              = HeaderTimeout) by (vm_compute; reflexivity).
  exact (conj H
           (proj2 (proj2 (wifi_timeout_is_silent silent_sensor Wifi.boot H)))).
Defined.

(** The standalone sketch reports the missing header: grid and raw buffer
    stay as they were, and the pass of [loop()] prints the error, then the
    waiting notice, and pauses five seconds. *)
Theorem standalone_timeout_report (env : cycle_env) (st : Standalone.state) :
  fst (Standalone.loop env st) = HeaderTimeout ->
  Standalone.frame (snd (Standalone.loop env st)) = Standalone.frame st /\
  Standalone.rawData (snd (Standalone.loop env st)) = Standalone.rawData st /\
  Standalone.out (snd (Standalone.loop env st))
  = Standalone.out st
    ++ [SensorDrain (Standalone.rx st); SensorWrite query_command;
        PrintNoResponse; PrintWaiting; Delay 5000].
Proof.
  unfold Standalone.loop. rewrite poll_summary.
  unfold standalone_poll_summary.
  destruct (observations env) as [| t0 ticks]; [discriminate |].
  destruct (wait_header _ _ _ _) as [rx' rest | rx' at_time rest |];
    [| intros _ | discriminate].
  - cbv zeta. destruct (Nat.eqb _ _); discriminate.
  - cbn [snd standalone_after Standalone.emit Standalone.frame
         Standalone.rawData Standalone.out].
    rewrite <- app_assoc. repeat split.
Qed.

Lemma standalone_timeout_report_witness :
  fst (Standalone.loop silent_sensor Standalone.boot) = HeaderTimeout /\
  Standalone.out (snd (Standalone.loop silent_sensor Standalone.boot))
  = Standalone.out Standalone.boot
    ++ [SensorDrain (Standalone.rx Standalone.boot);
        SensorWrite query_command;
        PrintNoResponse; PrintWaiting; Delay 5000].
Proof.
  assert (H : fst (Standalone.loop silent_sensor Standalone.boot)
              = HeaderTimeout) by (vm_compute; reflexivity).
  exact (conj H
           (proj2 (proj2 (standalone_timeout_report silent_sensor
                            Standalone.boot H)))).
Defined.

(** A short read in the standalone sketch: the count it prints is below
    1540, the grid stays as it was, and the pass ends with the waiting notice
    and the pause. *)
Theorem standalone_short_read_report (env : cycle_env)
    (st : Standalone.state) (n : nat) :
  fst (Standalone.loop env st) = ShortRead n ->
  (n < FRAME_BYTES)%nat /\
  Standalone.frame (snd (Standalone.loop env st)) = Standalone.frame st /\
  Standalone.out (snd (Standalone.loop env st))
  = Standalone.out st
    ++ [SensorDrain (Standalone.rx st); SensorWrite query_command;
        PrintIncomplete n; PrintWaiting; Delay 5000].
Proof.
  unfold Standalone.loop. rewrite poll_summary.
  unfold standalone_poll_summary.
  destruct (observations env) as [| t0 ticks]; [discriminate |].
  destruct (wait_header _ _ _ _) as [rx' rest | rx' at_time rest |];
    [| discriminate ..].
  cbv zeta.
  destruct (Nat.eqb_spec (length (take FRAME_BYTES (rx' ++ incoming env)))
              FRAME_BYTES) as [Heq | Hne]; [discriminate |].
  cbn [fst snd standalone_after Standalone.emit Standalone.frame
       Standalone.out].
  intros [= <-]. split; [rewrite length_take in *; lia |].
  split; [reflexivity |]. rewrite <- app_assoc. reflexivity.
Qed.

Lemma standalone_short_read_report_witness :
  fst (Standalone.loop stalled_answer Standalone.boot) = ShortRead 1000 /\
  (1000 < FRAME_BYTES)%nat.
Proof.
  assert (H : fst (Standalone.loop stalled_answer Standalone.boot)
              = ShortRead 1000) by (vm_compute; reflexivity).
  exact (conj H
           (proj1 (standalone_short_read_report stalled_answer
                     Standalone.boot 1000 H))).
Defined.

(** ** The first sketch *)

Lemma parse_loop_lookup n : forall i rawData frame j,
  Basic.parse_loop n i rawData frame !! j
  = (if decide (i <= j < i + n)%nat
     then (fun _ => celsius (sample16 rawData (j * 2 + 1) (j * 2)))
     else id) <$> frame !! j.
Proof.
  induction n as [| n IH]; intros i rawData frame j; cbn [Basic.parse_loop].
  - case_decide; [lia |]. destruct (frame !! j); reflexivity.
  - rewrite IH. unfold Basic.parse_pixel. rewrite lookup_insert_fmap.
    destruct (frame !! j) as [old |]; cbn [fmap option_fmap option_map];
      repeat case_decide; subst; try lia; reflexivity.
Qed.

Lemma parsePixels_lookup rawData frame i :
  (i < PIXELS)%nat -> length frame = PIXELS ->
  Basic.parsePixels rawData frame !! i
  = Some (celsius (sample16 rawData (i * 2 + 1) (i * 2))).
Proof.
  intros Hi Hlen. unfold Basic.parsePixels. rewrite parse_loop_lookup.
  destruct (lookup_lt_is_Some_2 frame i) as [old ->]; [lia |].
  case_decide; [reflexivity | lia].
Qed.

Lemma parse_loop_length n : forall i rawData frame,
  length (Basic.parse_loop n i rawData frame) = length frame.
Proof.
  induction n as [| n IH]; intros i rawData frame; [reflexivity |].
  cbn [Basic.parse_loop]. rewrite IH. unfold Basic.parse_pixel.
  apply length_insert.
Qed.

(** [parsePixels] rewrites the whole grid, whatever the bytes: cell [i] is
    [r / 100.0] for the signed 16-bit reading [r] of bytes [2i] and [2i+1]
    taken high byte first (the later sketches take the low byte first), with
    no plausibility test; nothing of the previous grid is left. *)
Theorem parsePixels_overwrites (rawData : list byte)
    (frame1 frame2 : list spec_float) :
  length frame1 = PIXELS -> length frame2 = PIXELS ->
  Basic.parsePixels rawData frame1 = Basic.parsePixels rawData frame2 /\
  length (Basic.parsePixels rawData frame1) = PIXELS /\
  forall i hi lo, (i < PIXELS)%nat ->
    rawData !! (i * 2)%nat = Some hi ->
    rawData !! (i * 2 + 1)%nat = Some lo ->
    Basic.parsePixels rawData frame1 !! i = Some (celsius (int16_be hi lo)) /\
    binary32 (celsius (int16_be hi lo)).
Proof.
  intros H1 H2. split; [| split].
  - apply list_eq. intros i.
    destruct (decide (i < PIXELS)%nat) as [Hi | Hi].
    + rewrite !parsePixels_lookup by assumption. reflexivity.
    + unfold Basic.parsePixels.
      rewrite !lookup_ge_None_2 by (rewrite parse_loop_length; lia).
      reflexivity.
  - unfold Basic.parsePixels. rewrite parse_loop_length. exact H1.
  - intros i hi lo Hi Hhi Hlo.
    rewrite parsePixels_lookup by assumption.
    rewrite (sample16_lookup _ _ _ _ _ Hlo Hhi). unfold int16_be.
    split; [reflexivity | apply celsius_binary32, int16_le_range].
Qed.

Lemma parsePixels_overwrites_witness :
  length (replicate PIXELS FP.zero) = PIXELS /\
  length (replicate PIXELS (celsius 2570)) = PIXELS /\
  Basic.parsePixels sample_frame (replicate PIXELS FP.zero)
  = Basic.parsePixels sample_frame (replicate PIXELS (celsius 2570)).
Proof.
  assert (H1 : length (replicate PIXELS FP.zero) = PIXELS)
    by apply length_replicate.
  assert (H2 : length (replicate PIXELS (celsius 2570)) = PIXELS)
    by apply length_replicate.
  exact (conj H1 (conj H2
           (proj1 (parsePixels_overwrites sample_frame _ _ H1 H2)))).
Defined.

Lemma parsePixels_binary32 rawData frame :
  length frame = PIXELS -> Forall binary32 (Basic.parsePixels rawData frame).
Proof.
  intros Hlen. apply Forall_lookup. intros i c Hc.
  assert (Hi : (i < PIXELS)%nat).
  { apply lookup_lt_Some in Hc. unfold Basic.parsePixels in Hc.
    rewrite parse_loop_length in Hc. lia. }
  rewrite parsePixels_lookup in Hc by assumption. injection Hc as <-.
  apply celsius_binary32, sample16_range.
Qed.

(** What a pass of [loop()] does once 5A 5A 02 and one more byte head the
    buffer: whatever that fourth byte is, and with 1536 bytes to follow, the
    frame is taken, the grid rewritten and the report printed. The length
    byte is read and never looked at. *)
Theorem length_byte_is_ignored (env : Basic.loop_env) (st : Basic.state)
    (b : byte) (rest : list byte) :
  Basic.rx st = [x5a; x5a; x02; b] ++ rest ->
  let stream :=
    rest ++ Basic.before_type env ++ Basic.before_length env
    ++ Basic.during_read env in
  (Basic.PIXEL_BYTES <= length stream)%nat ->
  Basic.loop env st
  = basic_parsed st (take Basic.PIXEL_BYTES stream)
      (drop Basic.PIXEL_BYTES stream).
Proof.
  intros Hrx stream Hlen. unfold Basic.loop. rewrite Hrx.
  cbn [app length serial_read].
  destruct (Z.leb_spec 2 (Z.of_nat (S (S (S (S (length rest)))))));
    [| lia].
  change (byte_val x5a =? 90) with true. cbn [negb].
  cbn [app serial_read].
  change (byte_val x02 =? 2) with true. cbn [negb].
  cbn [app serial_read]. unfold readBytes.
  rewrite <- !app_assoc. fold stream.
  rewrite length_take, Nat.min_l by exact Hlen. rewrite Nat.eqb_refl.
  reflexivity.
Qed.

Lemma length_byte_is_ignored_witness :
  Basic.rx (Basic.with_rx ([x5a; x5a; x02; x99] ++ []) Basic.boot)
  = [x5a; x5a; x02; x99] ++ [] /\
  (Basic.PIXEL_BYTES
   <= length ([] ++ [] ++ [] ++ take 1536 sample_frame))%nat /\
  Basic.loop (Basic.LoopEnv [] [] (take 1536 sample_frame))
    (Basic.with_rx ([x5a; x5a; x02; x99] ++ []) Basic.boot)
  = basic_parsed (Basic.with_rx ([x5a; x5a; x02; x99] ++ []) Basic.boot)
      (take Basic.PIXEL_BYTES ([] ++ [] ++ [] ++ take 1536 sample_frame))
      (drop Basic.PIXEL_BYTES ([] ++ [] ++ [] ++ take 1536 sample_frame)).
Proof.
  assert (H1 : Basic.rx (Basic.with_rx ([x5a; x5a; x02; x99] ++ []) Basic.boot)
               = [x5a; x5a; x02; x99] ++ []) by reflexivity.
  assert (H2 : (Basic.PIXEL_BYTES
                <= length ([] ++ [] ++ [] ++ take 1536 sample_frame))%nat)
    by (vm_compute; lia).
  exact (conj H1 (conj H2
           (length_byte_is_ignored
              (Basic.LoopEnv [] [] (take 1536 sample_frame))
              (Basic.with_rx ([x5a; x5a; x02; x99] ++ []) Basic.boot)
              x99 [] H1 H2))).
Defined.

(** The test before the reads asks for two bytes only. When 5A 5A is all
    that is buffered and nothing more arrives before the third [read()],
    that read returns -1: the pass consumes the two bytes and does nothing
    else, so this frame's header is gone. With fewer than two bytes buffered
    the pass does nothing at all. *)
Theorem split_header_is_dropped (env : Basic.loop_env) (st : Basic.state) :
  Basic.before_type env = [] ->
  (Basic.rx st = [x5a; x5a] -> Basic.loop env st = Basic.with_rx [] st) /\
  ((length (Basic.rx st) < 2)%nat -> Basic.loop env st = st).
Proof.
  intros Hnone. split.
  - intros Hrx. unfold Basic.loop. rewrite Hrx, Hnone. reflexivity.
  - intros Hlen. unfold Basic.loop.
    destruct (Z.leb_spec 2 (Z.of_nat (length (Basic.rx st)))); [lia |].
    reflexivity.
Qed.

Lemma split_header_is_dropped_witness :
  Basic.before_type (Basic.LoopEnv [] [x06] (replicate 1536 x00)) = [] /\
  (Basic.rx (Basic.with_rx [x5a; x5a] Basic.boot) = [x5a; x5a] ->
   Basic.loop (Basic.LoopEnv [] [x06] (replicate 1536 x00))
     (Basic.with_rx [x5a; x5a] Basic.boot)
   = Basic.with_rx [] (Basic.with_rx [x5a; x5a] Basic.boot)).
Proof.
  assert (H : Basic.before_type (Basic.LoopEnv [] [x06] (replicate 1536 x00))
              = []) by reflexivity.
  exact (conj H
           (proj1 (split_header_is_dropped
                     (Basic.LoopEnv [] [x06] (replicate 1536 x00))
                     (Basic.with_rx [x5a; x5a] Basic.boot) H))).
Defined.

(** The fourth [read()] is not checked either: when 5A 5A 02 is buffered and
    the length byte has not arrived yet, the read returns -1 unnoticed and
    [readBytes] starts with the length byte; every pixel byte lands one place
    late in the raw buffer, and the frame is decoded that way. *)
Theorem late_length_byte_shifts_frame (env : Basic.loop_env)
    (st : Basic.state) (len : byte) (payload : list byte) :
  Basic.rx st = [x5a; x5a; x02] ->
  Basic.before_type env = [] -> Basic.before_length env = [] ->
  Basic.during_read env = len :: payload ->
  (Basic.PIXEL_BYTES <= S (length payload))%nat ->
  Basic.loop env st
  = basic_parsed st (len :: take 1535 payload) (drop 1535 payload).
Proof.
  intros Hrx Ht Hl Hd Hlen. unfold Basic.loop.
  rewrite Hrx, Ht, Hl, Hd. cbn [app length serial_read].
  change (byte_val x5a =? 90) with true.
  change (byte_val x02 =? 2) with true. cbn [negb Z.leb Z.compare Z.of_nat
    Pos.of_succ_nat Pos.succ Pos.compare Pos.compare_cont].
  unfold readBytes, Basic.PIXEL_BYTES in *. cbn [app].
  change (take 1536 (len :: payload)) with (len :: take 1535 payload).
  change (drop 1536 (len :: payload)) with (drop 1535 payload).
  cbn [length]. rewrite length_take, Nat.min_l by lia.
  reflexivity.
Qed.

Lemma late_length_byte_shifts_frame_witness :
  Basic.rx (Basic.with_rx [x5a; x5a; x02] Basic.boot) = [x5a; x5a; x02] /\
  Basic.rawData
    (Basic.loop (Basic.LoopEnv [] [] (x06 :: replicate 1536 x0a))
       (Basic.with_rx [x5a; x5a; x02] Basic.boot)) !! 0%nat = Some x06.
Proof.
  assert (H1 : Basic.rx (Basic.with_rx [x5a; x5a; x02] Basic.boot)
               = [x5a; x5a; x02]) by reflexivity.
  assert (H2 : Basic.before_type (Basic.LoopEnv [] [] (x06 :: replicate 1536 x0a))
               = []) by reflexivity.
  assert (H3 : Basic.before_length
                 (Basic.LoopEnv [] [] (x06 :: replicate 1536 x0a)) = [])
    by reflexivity.
  assert (H4 : Basic.during_read
                 (Basic.LoopEnv [] [] (x06 :: replicate 1536 x0a))
               = x06 :: replicate 1536 x0a) by reflexivity.
  assert (H5 : (Basic.PIXEL_BYTES <= S (length (replicate 1536 x0a)))%nat)
    by (vm_compute; lia).
  split; [exact H1 |].
  rewrite (late_length_byte_shifts_frame _ _ x06 (replicate 1536 x0a)
             H1 H2 H3 H4 H5).
  reflexivity.
Defined.

(** The first sketch keeps its arrays in shape too, whatever a pass of
    [loop()] finds in the buffer. *)
Theorem basic_arrays_invariant (env : Basic.loop_env) (st : Basic.state) :
  arrays_ok (Basic.frame st) (Basic.rawData st) ->
  arrays_ok (Basic.frame (Basic.loop env st))
    (Basic.rawData (Basic.loop env st)).
Proof.
  intros Hok. unfold Basic.loop.
  destruct (2 <=? _); [| exact Hok].
  destruct (serial_read (Basic.rx st)) as [c0 rx1].
  destruct (negb (c0 =? 90)); [exact Hok |].
  destruct (serial_read rx1) as [c1 rx2].
  destruct (negb (c1 =? 90)); [exact Hok |].
  destruct (serial_read (rx2 ++ _)) as [c2 rx3].
  destruct (negb (c2 =? 2)); [exact Hok |].
  destruct (serial_read (rx3 ++ _)) as [dataLen rx4].
  unfold readBytes. destruct Hok as (Hf & Hr & Hb).
  assert (Hstore : length (store (take Basic.PIXEL_BYTES
                                    (rx4 ++ Basic.during_read env))
                             (Basic.rawData st)) = FRAME_BYTES).
  { rewrite store_length; [exact Hr |]. rewrite length_take, Hr.
    unfold Basic.PIXEL_BYTES, FRAME_BYTES. lia. }
  destruct (Nat.eqb _ _);
    cbn [Basic.emit Basic.with_frame Basic.with_rx Basic.with_rawData
         Basic.frame Basic.rawData].
  - split; [unfold Basic.parsePixels; rewrite parse_loop_length; exact Hf |].
    split; [exact Hstore | apply parsePixels_binary32, Hf].
  - split; [exact Hf |]. split; [exact Hstore | exact Hb].
Qed.

Lemma basic_arrays_invariant_witness :
  arrays_ok (Basic.frame Basic.boot) (Basic.rawData Basic.boot) /\
  arrays_ok
    (Basic.frame (Basic.loop (Basic.LoopEnv [] [] []) Basic.boot))
    (Basic.rawData (Basic.loop (Basic.LoopEnv [] [] []) Basic.boot)).
Proof.
  assert (H : arrays_ok (Basic.frame Basic.boot) (Basic.rawData Basic.boot)).
  { split; [apply length_replicate |].
    split; [apply length_replicate | exact zero_grid_binary32]. }
  exact (conj H (basic_arrays_invariant (Basic.LoopEnv [] [] []) Basic.boot H)).
Defined.

(** The report of [showStats]: a line with the minimum and the maximum, then
    twelve lines of 32 marks, one for each even row of the grid, then the
    rule. No cell is below the minimum printed or above the maximum, and both
    are values of cells. *)
Theorem showStats_report (frame : list spec_float) :
  length frame = PIXELS ->
  exists lo hi,
    Basic.showStats frame
    = Basic.PrintMinMax lo hi
      :: map (fun k => Basic.PrintRow (Basic.row frame (2 * k))) (seq 0 12)
      ++ [Basic.PrintRule] /\
    (forall i c, frame !! i = Some c -> within (Stats lo hi) c) /\
    (exists j, frame !! j = Some lo) /\ (exists j, frame !! j = Some hi) /\
    (forall k, (k < 12)%nat -> length (Basic.row frame (2 * k)) = 32%nat).
Proof.
  intros Hlen.
  set (s := Basic.stats_loop 767 1 frame
              (Stats (frame !!! 0%nat) (frame !!! 0%nat))).
  assert (Hcell : forall j, (j < PIXELS)%nat -> frame !! j = Some (frame !!! j)).
  { intros j Hj. destruct (lookup_lt_is_Some_2 frame j) as [c Hc]; [lia |].
    rewrite Hc. f_equal. symmetry. apply list_lookup_total_correct, Hc. }
  exists (minT s), (maxT s). split; [reflexivity |].
  unfold s. rewrite stats_loop_running.
  split; [| split; [| split]].
  - intros i c Hc. pose proof (lookup_lt_Some _ _ _ Hc) as Hi.
    rewrite <- (list_lookup_total_correct _ _ _ Hc).
    set (r := running 767 1 (fun _ => true) (fun j => frame !!! j)
                (Stats (frame !!! 0%nat) (frame !!! 0%nat))).
    enough (Hr : within r (frame !!! i)) by exact Hr.
    unfold r.
    destruct i as [| i].
    + apply running_keeps. split; apply lt_irrefl.
    + apply (running_bounds 767 1 (fun _ => true) (fun j => frame !!! j));
        [unfold PIXELS in *; lia | reflexivity].
  - destruct (running_attained 767 1 (fun _ => true) (fun j => frame !!! j)
                (Stats (frame !!! 0%nat) (frame !!! 0%nat)))
      as [[-> | (j & Hj & _ & ->)] _].
    + exists 0%nat. apply Hcell. unfold PIXELS. lia.
    + exists j. apply Hcell. unfold PIXELS. lia.
  - destruct (running_attained 767 1 (fun _ => true) (fun j => frame !!! j)
                (Stats (frame !!! 0%nat) (frame !!! 0%nat)))
      as [_ [-> | (j & Hj & _ & ->)]].
    + exists 0%nat. apply Hcell. unfold PIXELS. lia.
    + exists j. apply Hcell. unfold PIXELS. lia.
  - intros k _. unfold Basic.row. rewrite length_map. reflexivity.
Qed.

Lemma showStats_report_witness :
  length (replicate PIXELS (celsius 2570)) = PIXELS /\
  exists lo hi,
    Basic.showStats (replicate PIXELS (celsius 2570))
    = Basic.PrintMinMax lo hi
      :: map (fun k => Basic.PrintRow
                         (Basic.row (replicate PIXELS (celsius 2570)) (2 * k)))
           (seq 0 12)
      ++ [Basic.PrintRule].
Proof.
  assert (H : length (replicate PIXELS (celsius 2570)) = PIXELS)
    by apply length_replicate.
  split; [exact H |].
  destruct (showStats_report (replicate PIXELS (celsius 2570)) H)
    as (lo & hi & Hshow & _).
  exists lo, hi. exact Hshow.
Defined.

(** The marks of the report: a cell that holds the temperature of reading
    [r] is printed as [#] exactly when [r] is above 3000, that is above
    30.00 degrees; 30.00 itself prints as a dot. *)
Theorem hot_mark_threshold (r : Z) :
  -32768 <= r <= 32767 -> Basic.hot (celsius r) = (3000 <? r).
Proof.
  intros Hr. unfold Basic.hot.
  change (float_of_int 30) with (celsius 3000).
  destruct (Z.ltb_spec 3000 r) as [Hgt | Hle].
  - apply celsius_lt; lia.
  - destruct (Z.eq_dec r 3000) as [-> | Hne]; [apply lt_irrefl |].
    apply lt_asym, celsius_lt; lia.
Qed.

Lemma hot_mark_threshold_witness :
  -32768 <= 3001 <= 32767 /\ Basic.hot (celsius 3001) = true /\
  Basic.hot (celsius 3000) = false.
Proof.
  assert (H1 : -32768 <= 3001 <= 32767) by lia.
  assert (H2 : -32768 <= 3000 <= 32767) by lia.
  exact (conj H1 (conj (hot_mark_threshold 3001 H1)
                       (hot_mark_threshold 3000 H2))).
Defined.

(** ** From the poll cycle to the picture *)

Lemma onMessage_frame_bytes (frame : list spec_float) :
  length frame = PIXELS -> Forall binary32 frame ->
  Page.onMessage (frame_bytes frame) = Page.Drew (Page.drawHeatmap frame).
Proof.
  intros Hlen Hb. unfold Page.onMessage, Page.Float32Array.
  rewrite frame_bytes_length.
  replace (4 * length frame)%nat with (length frame * 4)%nat by lia.
  rewrite Nat.Div0.mod_mul. cbn [Nat.eqb].
  rewrite floats_of_frame_bytes by exact Hb. rewrite Hlen. reflexivity.
Qed.

(** End to end: after a successful cycle every connected client is sent a
    message that the page accepts (no exception, the size test passes) and
    draws, and what it draws is the heat map of exactly the grid the sketch
    holds. *)
Theorem page_draws_the_grid (env : cycle_env) (st st' : Wifi.state) :
  arrays_ok (Wifi.frame st) (Wifi.rawData st) ->
  Wifi.requestSensorData env st = (Success, st') ->
  forall c, In c (Wifi.clients st) ->
    exists payload,
      In (Broadcast c payload) (Wifi.out st') /\
      Page.onMessage payload = Page.Drew (Page.drawHeatmap (Wifi.frame st')).
Proof.
  intros (Hf & Hr & Hb) Hrun c Hc.
  destruct (wifi_cycle_success env st st' Hrun) as (Hframe & Hout).
  exists (frame_bytes (Wifi.frame st')). split.
  - rewrite Hout. apply in_or_app. right. apply in_or_app. right.
    unfold broadcastBIN. apply in_map_iff. exists c. split; [reflexivity |].
    exact Hc.
  - apply onMessage_frame_bytes.
    + rewrite Hframe, decodeFrame_length. exact Hf.
    + rewrite Hframe. apply decodeFrame_binary32, Hb.
Qed.

Lemma page_draws_the_grid_witness :
  arrays_ok (Wifi.frame (Wifi.with_clients [7%nat] Wifi.boot))
    (Wifi.rawData (Wifi.with_clients [7%nat] Wifi.boot)) /\
  fst (Wifi.requestSensorData answer_warm (Wifi.with_clients [7%nat] Wifi.boot))
  = Success /\
  exists payload,
    In (Broadcast 7%nat payload)
      (Wifi.out (snd (Wifi.requestSensorData answer_warm
                        (Wifi.with_clients [7%nat] Wifi.boot)))) /\
    Page.onMessage payload
    = Page.Drew
        (Page.drawHeatmap
           (Wifi.frame (snd (Wifi.requestSensorData answer_warm
                               (Wifi.with_clients [7%nat] Wifi.boot))))).
Proof.
  assert (H1 : arrays_ok (Wifi.frame (Wifi.with_clients [7%nat] Wifi.boot))
                 (Wifi.rawData (Wifi.with_clients [7%nat] Wifi.boot))).
  { split; [apply length_replicate |].
    split; [apply length_replicate | exact zero_grid_binary32]. }
  assert (H2 : fst (Wifi.requestSensorData answer_warm
                      (Wifi.with_clients [7%nat] Wifi.boot)) = Success)
    by (vm_compute; reflexivity).
  assert (H3 : Wifi.requestSensorData answer_warm
                 (Wifi.with_clients [7%nat] Wifi.boot)
               = (Success,
                  snd (Wifi.requestSensorData answer_warm
                         (Wifi.with_clients [7%nat] Wifi.boot)))).
  { apply injective_projections; [exact H2 | reflexivity]. }
  exact (conj H1 (conj H2
           (page_draws_the_grid answer_warm _ _ H1 H3 7%nat
              (or_introl eq_refl)))).
Defined.

Lemma lt_finite_infinity (x : spec_float) :
  FP.finite x = true ->
  FP.lt x (S754_infinity false) = true /\
  FP.lt (S754_infinity true) x = true.
Proof.
  destruct x as [s | s | | s m e]; try discriminate; intros _.
  - split; reflexivity.
  - split; reflexivity.
Qed.

Lemma extremes_uniform (n : nat) (c : spec_float) :
  FP.finite (FP.to_double c) = true ->
  Page.extremes (replicate (S n) c)
  = Stats (FP.to_double c) (FP.to_double c).
Proof.
  intros Hfin. unfold Page.extremes. cbn [replicate foldl].
  destruct (lt_finite_infinity _ Hfin) as [Hlo Hhi].
  unfold Basic.stats_step at 2. cbn [minT maxT]. rewrite Hlo, Hhi.
  induction n as [| n IH]; [reflexivity |].
  cbn [replicate foldl]. unfold Basic.stats_step at 2. cbn [minT maxT].
  rewrite lt_irrefl. exact IH.
Qed.

Lemma sub_self (x : spec_float) :
  FP.finite x = true -> SFsub 53 1024 x x = S754_zero false.
Proof.
  destruct x as [s | s | | s m e]; try discriminate; intros _.
  - destruct s; reflexivity.
  - unfold SFsub. rewrite Z.min_id, Z.sub_diag. reflexivity.
Qed.

Lemma hue_uniform (c : spec_float) :
  FP.finite (FP.to_double c) = true ->
  Page.hue (Stats (FP.to_double c) (FP.to_double c)) c
  = FP.double_of_int 240.
Proof.
  intros Hfin. unfold Page.hue. cbn [minT maxT]. cbv zeta.
  rewrite (sub_self _ Hfin). reflexivity.
Qed.

(** A frame whose 768 cells hold the same (finite) value is drawn in one
    colour, hue 240: the page's [|| 1] keeps the division away from 0 / 0,
    and no cell gets NaN for a hue. *)
Theorem uniform_frame_is_blue (c : spec_float) :
  FP.finite (FP.to_double c) = true ->
  length (Page.drawHeatmap (replicate PIXELS c)) = PIXELS /\
  Forall (fun h => h = FP.double_of_int 240)
    (Page.drawHeatmap (replicate PIXELS c)).
Proof.
  intros Hfin. split; [reflexivity |].
  apply List.Forall_forall. intros h Hh. unfold Page.drawHeatmap in Hh.
  apply in_flat_map in Hh as (y & Hy & Hh).
  apply in_map_iff in Hh as (x & <- & Hx).
  apply in_seq in Hy. apply in_seq in Hx.
  change PIXELS with (S 767). rewrite extremes_uniform by exact Hfin.
  rewrite lookup_total_replicate_2 by lia.
  apply hue_uniform, Hfin.
Qed.

Lemma uniform_frame_is_blue_witness :
  FP.finite (FP.to_double (celsius 2570)) = true /\
  Forall (fun h => h = FP.double_of_int 240)
    (Page.drawHeatmap (replicate PIXELS (celsius 2570))).
Proof.
  assert (H : FP.finite (FP.to_double (celsius 2570)) = true)
    by (vm_compute; reflexivity).
  exact (conj H (proj2 (uniform_frame_is_blue (celsius 2570) H))).
Defined.

Lemma extremes_fold (data : list spec_float) : forall s c,
  within s c ->
  within (foldl (fun s c => Basic.stats_step (FP.to_double c) s) s data) c.
Proof.
  induction data as [| d data IH]; intros s c H; [exact H |].
  cbn [foldl]. apply IH, stats_step_keeps, H.
Qed.

(** The loop of the page that looks for [minT] and [maxT] finds bounds: no
    element of the data, as the number the page reads, is below [minT] or
    above [maxT]. *)
Theorem drawHeatmap_extremes (data : list spec_float) (c : spec_float) :
  In c data -> within (Page.extremes data) (FP.to_double c).
Proof.
  unfold Page.extremes.
  generalize (Stats (S754_infinity false) (S754_infinity true)).
  induction data as [| d data IH]; intros s Hc; [destruct Hc |].
  cbn [foldl]. destruct Hc as [-> | Hc].
  - apply extremes_fold, stats_step_self.
  - apply IH, Hc.
Qed.

Lemma drawHeatmap_extremes_witness :
  In (celsius 2570) [FP.zero; celsius 2570; celsius (-1)] /\
  within (Page.extremes [FP.zero; celsius 2570; celsius (-1)])
    (FP.to_double (celsius 2570)).
Proof.
  assert (H : In (celsius 2570) [FP.zero; celsius 2570; celsius (-1)])
    by (right; left; reflexivity).
  exact (conj H (drawHeatmap_extremes _ _ H)).
Defined.

(** * The claims on the header search and on the payload *)

(** ** A header that arrives in pieces *)

Lemma failed_candidate_not_header (c x y : list byte) :
  failed_candidate c -> c ++ x = header ++ y -> False.
Proof.
  intros Hc Heq. pose proof (match_header_failed c x Hc) as H.
  rewrite Heq, match_header_found in H. discriminate.
Qed.

(** The failed candidate at the front of a stream is determined by the
    stream. *)
Lemma failed_candidate_unique (c c' x y : list byte) :
  failed_candidate c -> failed_candidate c' -> c ++ x = c' ++ y ->
  c = c' /\ x = y.
Proof.
  intros Hc Hc' Heq. pose proof (match_header_failed c x Hc) as H.
  rewrite Heq, (match_header_failed c' y Hc') in H. injection H as Hxy.
  subst y. split; [| reflexivity]. exact (app_inv_tail _ _ _ Heq).
Qed.

Lemma wait_header_tick deadline startWait (rx : list byte) (t : tick)
    (rest : list tick) :
  in_time deadline startWait t ->
  wait_header deadline startWait rx (t :: rest)
  = if 4 <=? Z.of_nat (length (rx ++ arrived t)) then
      match match_header (rx ++ arrived t) with
      | (true, rx') => Matched rx' rest
      | (false, rx') => wait_header deadline startWait rx' rest
      end
    else wait_header deadline startWait (rx ++ arrived t) rest.
Proof.
  intros Ht. cbn [wait_header]. cbv zeta.
  destruct (Z.ltb_spec (elapsed (now t) startWait) deadline) as [_ | Hge];
    [reflexivity | unfold in_time in Ht; lia].
Qed.

Lemma four_buffered (junk more : list byte) :
  (4 <=? Z.of_nat (length (junk ++ header ++ more))) = true.
Proof.
  apply Z.leb_le. rewrite !length_app. cbn [length header]. lia.
Qed.

(** Once the header is complete in the buffer, behind the candidates [cs],
    every pass tests, and the pass number [length cs + 1] finds it. *)
Lemma wait_header_ready deadline startWait (cs : list (list byte)) :
  forall (rx : list byte) (t : tick) (after : list tick) (more : list byte),
    Forall failed_candidate cs ->
    rx ++ arrived t = concat cs ++ header ++ more ->
    (length cs <= length after)%nat ->
    Forall (in_time deadline startWait) (t :: take (length cs) after) ->
    wait_header deadline startWait rx (t :: after)
    = Matched (more ++ arrivals (take (length cs) after))
        (drop (length cs) after).
Proof.
  induction cs as [| c cs IH]; intros rx t after more Hcs Hbuf Hlen Htime.
  - apply Forall_cons_1 in Htime as [Ht _].
    rewrite (wait_header_tick _ _ _ _ _ Ht), Hbuf.
    cbn [concat app length take drop].
    change (4 <=? Z.of_nat (length (header ++ more)))
      with (4 <=? Z.of_nat (length ([] ++ header ++ more))).
    rewrite four_buffered, match_header_found.
    unfold arrivals. cbn [map concat]. rewrite app_nil_r. reflexivity.
  - apply Forall_cons_1 in Hcs as [Hc Hcs].
    destruct after as [| t' after]; [cbn [length] in Hlen; lia |].
    cbn [length take drop] in *.
    apply Forall_cons_1 in Htime as [Ht Htime].
    rewrite (wait_header_tick _ _ _ _ _ Ht), Hbuf.
    cbn [concat]. rewrite <- app_assoc.
    pose proof (four_buffered (c ++ concat cs) more) as Hfour.
    rewrite <- app_assoc in Hfour. rewrite Hfour.
    rewrite (match_header_failed c _ Hc).
    rewrite (IH (concat cs ++ header ++ more) t' after (more ++ arrived t')
               Hcs);
      [| rewrite <- !app_assoc; reflexivity | lia | exact Htime].
    rewrite arrivals_cons, <- app_assoc. reflexivity.
Qed.

Lemma in_time_fewer deadline startWait (ticks after : list tick) (m n : nat) :
  (m <= n)%nat ->
  Forall (in_time deadline startWait) (ticks ++ take n after) ->
  Forall (in_time deadline startWait) (ticks ++ take m after).
Proof.
  intros Hmn H. apply Forall_app in H as [H1 H2]. apply Forall_app.
  split; [exact H1 |].
  replace (take m after) with (take m (take n after))
    by (rewrite take_take; f_equal; lia).
  apply Forall_take, H2.
Qed.

Lemma wait_header_finds deadline startWait (early : list tick) :
  forall (cs : list (list byte)) (rx : list byte) (t : tick)
         (after : list tick) (more : list byte),
    Forall failed_candidate cs ->
    rx ++ arrivals (early ++ [t]) = concat cs ++ header ++ more ->
    (length cs <= length after)%nat ->
    Forall (in_time deadline startWait)
      (early ++ t :: take (length cs) after) ->
    exists used unused rx',
      early ++ t :: after = used ++ unused /\
      (length cs < length used <= length early + S (length cs))%nat /\
      wait_header deadline startWait rx (early ++ t :: after)
      = Matched rx' unused /\
      rx ++ arrivals used = concat cs ++ header ++ rx'.
Proof.
  induction early as [| e early IH];
    intros cs rx t after more Hcs Hstream Hlen Htime.
  - cbn [app] in *. unfold arrivals in Hstream. cbn [map concat] in Hstream.
    rewrite app_nil_r in Hstream.
    exists (t :: take (length cs) after), (drop (length cs) after),
      (more ++ arrivals (take (length cs) after)).
    split; [cbn [app]; rewrite take_drop; reflexivity |].
    split; [cbn [length]; rewrite length_take; lia |].
    split; [apply wait_header_ready; assumption |].
    rewrite arrivals_cons, app_assoc, Hstream, <- !app_assoc. reflexivity.
  - cbn [app] in *. apply Forall_cons_1 in Htime as [He Htime].
    rewrite arrivals_cons, app_assoc in Hstream.
    rewrite (wait_header_tick _ _ _ _ _ He).
    destruct (Z.leb_spec 4 (Z.of_nat (length (rx ++ arrived e))))
      as [Hfour | Hfew].
    + destruct (match_header_cases (rx ++ arrived e) ltac:(lia))
        as [(aft & Hbuf & ->) | (c' & aft & Hc' & Hbuf & ->)].
      * rewrite Hbuf, <- app_assoc in Hstream.
        destruct cs as [| c cs].
        -- exists [e], (early ++ t :: after), aft.
           split; [reflexivity |]. split; [cbn [length]; lia |].
           split; [reflexivity |].
           unfold arrivals. cbn [map concat]. rewrite app_nil_r. exact Hbuf.
        -- exfalso. apply Forall_cons_1 in Hcs as [Hc _].
           cbn [concat] in Hstream. rewrite <- app_assoc in Hstream.
           exact (failed_candidate_not_header c _ _ Hc (eq_sym Hstream)).
      * rewrite Hbuf, <- app_assoc in Hstream.
        destruct cs as [| c cs].
        -- exfalso. exact (failed_candidate_not_header c' _ _ Hc' Hstream).
        -- apply Forall_cons_1 in Hcs as [Hc Hcs].
           cbn [concat] in Hstream. rewrite <- app_assoc in Hstream.
           destruct (failed_candidate_unique c' c _ _ Hc' Hc Hstream)
             as [-> Hrest].
           cbn [length] in Hlen, Htime.
           destruct (IH cs aft t after more Hcs Hrest ltac:(lia))
             as (used & unused & rx' & Hsplit & Hcount & Hrun & Hbytes).
           { change (early ++ t :: take (length cs) after)
               with (early ++ [t] ++ take (length cs) after).
             rewrite app_assoc.
             apply (in_time_fewer _ _ (early ++ [t]) after (length cs)
                      (S (length cs))); [lia |].
             rewrite <- app_assoc. exact Htime. }
           exists (e :: used), unused, rx'.
           split; [cbn [app]; rewrite Hsplit; reflexivity |].
           split; [cbn [length]; lia |]. split; [exact Hrun |].
           rewrite arrivals_cons, app_assoc, Hbuf, <- !app_assoc, Hbytes.
           cbn [concat]. rewrite <- app_assoc. reflexivity.
    + destruct (IH cs (rx ++ arrived e) t after more Hcs Hstream Hlen Htime)
        as (used & unused & rx' & Hsplit & Hcount & Hrun & Hbytes).
      exists (e :: used), unused, rx'.
      split; [cbn [app]; rewrite Hsplit; reflexivity |].
      split; [cbn [length]; lia |]. split; [exact Hrun |].
      rewrite arrivals_cons, app_assoc. exact Hbytes.
Qed.

(** C1, amended to what the destructive reads do. With four bytes buffered, a
    test either finds the header at the front of the buffer or consumes one
    failed candidate, up to and including the mismatching byte, and the search
    goes on at the byte after it. So a header is found when it starts where a
    test starts. Take any stream that is a run of failed candidates [cs]
    (bytes other than 5A one at a time, or false starts such as 5A 5A 02 99)
    followed by the header, delivered in any pieces: part of it buffered,
    the rest brought by the observations [early] and [t], the header's last
    byte by [t] at the latest. If [t] and the [length cs] observations after
    it (and those before it) are inside the deadline, the wait reports the
    header: that header, with exactly the failed candidates dropped in front
    of it and exactly the bytes received after it left in the buffer, after
    more than [length cs] observations and at most [length cs] after [t].
    When the stream is complete at the first observation, the header is found
    at observation [length cs + 1]. In the sketches, such a cycle does not
    end as a header timeout. *)
Theorem header_found_after_failed_candidates (deadline startWait : Z)
    (cs : list (list byte)) (rx : list byte) (early : list tick) (t : tick)
    (after : list tick) (more : list byte) :
  Forall failed_candidate cs ->
  rx ++ arrivals (early ++ [t]) = concat cs ++ header ++ more ->
  (length cs <= length after)%nat ->
  Forall (in_time deadline startWait) (early ++ t :: take (length cs) after) ->
  (forall buf, (4 <= length buf)%nat ->
     (exists rest, buf = header ++ rest /\ match_header buf = (true, rest)) \/
     (exists c rest, failed_candidate c /\ buf = c ++ rest
                     /\ match_header buf = (false, rest))) /\
  (exists used unused rx',
     early ++ t :: after = used ++ unused /\
     (length cs < length used <= length early + S (length cs))%nat /\
     wait_header deadline startWait rx (early ++ t :: after)
     = Matched rx' unused /\
     rx ++ arrivals used = concat cs ++ header ++ rx') /\
  (early = [] ->
   wait_header deadline startWait rx (t :: after)
   = Matched (more ++ arrivals (take (length cs) after))
       (drop (length cs) after)) /\
  (forall t0 inc,
     startWait = now t0 -> rx = arrived t0 ->
     (deadline = Wifi.SYNC_DEADLINE -> forall st,
        exists o,
          fst (Wifi.requestSensorData
                 (CycleEnv (t0 :: early ++ t :: after) inc) st) = o /\
          o <> HeaderTimeout /\ o <> Unfinished) /\
     (deadline = Standalone.SYNC_DEADLINE -> forall st,
        exists o,
          fst (Standalone.poll
                 (CycleEnv (t0 :: early ++ t :: after) inc) st) = o /\
          o <> HeaderTimeout /\ o <> Unfinished)).
Proof.
  intros Hcs Hstream Hlen Htime.
  destruct (wait_header_finds deadline startWait early cs rx t after more
              Hcs Hstream Hlen Htime)
    as (used & unused & rx' & Hsplit & Hcount & Hrun & Hbytes).
  split; [exact match_header_cases |].
  split; [exists used, unused, rx'; repeat split; try assumption; lia |].
  split.
  - intros ->. cbn [app] in *. unfold arrivals in Hstream.
    cbn [map concat] in Hstream. rewrite app_nil_r in Hstream.
    apply wait_header_ready; assumption.
  - intros t0 inc -> ->. split.
    + intros -> st. eexists. split; [reflexivity |].
      rewrite requestSensorData_summary. unfold wifi_cycle_summary.
      cbn [observations]. rewrite Hrun. cbv zeta.
      destruct (Nat.eqb _ _); cbn [fst]; split; discriminate.
    + intros -> st. eexists. split; [reflexivity |].
      rewrite poll_summary. unfold standalone_poll_summary.
      cbn [observations]. rewrite Hrun. cbv zeta.
      destruct (Nat.eqb _ _); cbn [fst]; split; discriminate.
Qed.

(** The false start 5A 5A 02 99 and then the header, in three pieces that
    cut both. *)
Lemma header_found_after_failed_candidates_witness :
  Forall failed_candidate [[x5a; x5a; x02; x99]] /\
  [] ++ arrivals (pieces_early ++ [pieces_last])
  = concat [[x5a; x5a; x02; x99]] ++ header ++ [x11; x22] /\
  (length [[x5a; x5a; x02; x99]] <= length [Tick [] 4])%nat /\
  Forall (in_time 500 0)
    (pieces_early ++ pieces_last
       :: take (length [[x5a; x5a; x02; x99]]) [Tick [] 4]) /\
  exists used unused rx',
    pieces_early ++ pieces_last :: [Tick [] 4] = used ++ unused /\
    (length [[x5a; x5a; x02; x99]] < length used
     <= length pieces_early + S (length [[x5a; x5a; x02; x99]]))%nat /\
    wait_header 500 0 [] (pieces_early ++ pieces_last :: [Tick [] 4])
    = Matched rx' unused /\
    [] ++ arrivals used
    = concat [[x5a; x5a; x02; x99]] ++ header ++ rx'.
Proof.
  assert (H1 : Forall failed_candidate [[x5a; x5a; x02; x99]]).
  { constructor; [| constructor]. apply fail_fourth. discriminate. }
  assert (H2 : [] ++ arrivals (pieces_early ++ [pieces_last])
               = concat [[x5a; x5a; x02; x99]] ++ header ++ [x11; x22])
    by reflexivity.
  assert (H3 : (length [[x5a; x5a; x02; x99]] <= length [Tick [] 4])%nat)
    by (cbn [length]; lia).
  assert (H4 : Forall (in_time 500 0)
                 (pieces_early ++ pieces_last
                    :: take (length [[x5a; x5a; x02; x99]]) [Tick [] 4])).
  { repeat constructor. }
  exact (conj H1 (conj H2 (conj H3 (conj H4
           (proj1 (proj2 (header_found_after_failed_candidates 500 0
                            [[x5a; x5a; x02; x99]] [] pieces_early
                            pieces_last [Tick [] 4] [x11; x22]
                            H1 H2 H3 H4))))))).
Defined.

(** ** The payload, cell by cell and read back *)

(** C7. After a cycle that succeeds, the grid is the decoded one, and the
    cycle has sent one binary message to each client that was connected, in
    order, and nothing else after the query: the same payload for all, 3072
    bytes, in which cell [i] (row [i / 32], column [i mod 32]) lies at bytes
    [4i] to [4i+3] as the little-endian 32-bit pattern of its float. The
    pattern is the IEEE-754 binary32 one: when the grid held [float] values
    before the cycle it holds [float] values after it, and decoding the
    payload four bytes at a time, low byte first, as sign bit, 8-bit biased
    exponent and 23-bit fraction, gives back the 768 cells of the grid. With
    no client connected nothing is sent, and the grid is decoded all the
    same. *)
Theorem publish_on_success (env : cycle_env) (st st' : Wifi.state) :
  length (Wifi.frame st) = PIXELS ->
  Wifi.requestSensorData env st = (Success, st') ->
  let payload := frame_bytes (Wifi.frame st') in
  Wifi.frame st' = decodeFrame (Wifi.rawData st') (Wifi.frame st) /\
  length payload = 3072%nat /\
  (forall i, (i < PIXELS)%nat ->
     exists c,
       Wifi.frame st' !! i = Some c /\
       map byte_val (take 4 (drop (4 * i) payload))
       = [ FP.bits32 c mod 256; (FP.bits32 c / 2 ^ 8) mod 256;
           (FP.bits32 c / 2 ^ 16) mod 256; (FP.bits32 c / 2 ^ 24) mod 256 ]) /\
  (Forall binary32 (Wifi.frame st) ->
   Forall binary32 (Wifi.frame st') /\
   Page.floats_of_bytes payload = Wifi.frame st' /\
   forall i c, Wifi.frame st' !! i = Some c ->
     exists b0 b1 b2 b3,
       take 4 (drop (4 * i) payload) = [b0; b1; b2; b3] /\
       Page.float_of_bits (Page.word_of_bytes b0 b1 b2 b3) = c) /\
  Wifi.out st'
  = Wifi.out st ++ [SensorDrain (Wifi.rx st); SensorWrite query_command]
      ++ map (fun c => Broadcast c payload) (Wifi.clients st) /\
  (Wifi.clients st = [] ->
   Wifi.out st'
   = Wifi.out st ++ [SensorDrain (Wifi.rx st); SensorWrite query_command]).
Proof.
  intros Hlen Hrun payload.
  destruct (wifi_cycle_success env st st' Hrun) as (Hframe & Hout).
  assert (Hlen' : length (Wifi.frame st') = PIXELS)
    by (rewrite Hframe, decodeFrame_length; exact Hlen).
  split; [exact Hframe |].
  split; [unfold payload; rewrite frame_bytes_length, Hlen'; reflexivity |].
  split; [| split; [| split; [exact Hout |]]].
  - intros i Hi.
    destruct (lookup_lt_is_Some_2 (Wifi.frame st') i) as [c Hc]; [lia |].
    exists c. split; [exact Hc |].
    unfold payload. rewrite (frame_bytes_cell _ _ _ Hc).
    apply float_bytes_little_endian.
  - intros Hb.
    assert (Hb' : Forall binary32 (Wifi.frame st'))
      by (rewrite Hframe; apply decodeFrame_binary32, Hb).
    split; [exact Hb' |].
    split; [unfold payload; apply floats_of_frame_bytes, Hb' |].
    intros i c Hc. unfold payload. rewrite (frame_bytes_cell _ _ _ Hc).
    pose proof (Forall_lookup_1 _ _ _ _ Hb' Hc) as Hvalid.
    eexists _, _, _, _. split; [reflexivity |].
    rewrite word_of_float_bytes by (apply bits32_range, Hvalid).
    apply float_of_bits_bits32, Hvalid.
  - intros Hnone. rewrite Hout, Hnone. reflexivity.
Qed.

(** The first pixel of the sample answer reads 25.70: its four bytes in the
    payload are 9A 99 CD 41, the binary32 pattern 41CD999A. *)
Lemma publish_on_success_witness :
  length (Wifi.frame (Wifi.with_clients [1%nat; 2%nat] Wifi.boot)) = PIXELS /\
  Wifi.requestSensorData answer_sample
    (Wifi.with_clients [1%nat; 2%nat] Wifi.boot)
  = (Success,
     snd (Wifi.requestSensorData answer_sample
            (Wifi.with_clients [1%nat; 2%nat] Wifi.boot))) /\
  Forall binary32 (Wifi.frame (Wifi.with_clients [1%nat; 2%nat] Wifi.boot)) /\
  length (frame_bytes
            (Wifi.frame
               (snd (Wifi.requestSensorData answer_sample
                       (Wifi.with_clients [1%nat; 2%nat] Wifi.boot)))))
  = 3072%nat /\
  Page.floats_of_bytes
    (frame_bytes
       (Wifi.frame
          (snd (Wifi.requestSensorData answer_sample
                  (Wifi.with_clients [1%nat; 2%nat] Wifi.boot)))))
  = Wifi.frame
      (snd (Wifi.requestSensorData answer_sample
              (Wifi.with_clients [1%nat; 2%nat] Wifi.boot))) /\
  take 4
    (frame_bytes
       (Wifi.frame
          (snd (Wifi.requestSensorData answer_sample
                  (Wifi.with_clients [1%nat; 2%nat] Wifi.boot)))))
  = [x9a; x99; xcd; x41].
Proof.
  assert (H1 : length (Wifi.frame (Wifi.with_clients [1%nat; 2%nat] Wifi.boot))
               = PIXELS) by reflexivity.
  assert (H2 : Wifi.requestSensorData answer_sample
                 (Wifi.with_clients [1%nat; 2%nat] Wifi.boot)
               = (Success,
                  snd (Wifi.requestSensorData answer_sample
                         (Wifi.with_clients [1%nat; 2%nat] Wifi.boot)))).
  { apply injective_projections; [vm_compute; reflexivity | reflexivity]. }
  assert (H3 : Forall binary32
                 (Wifi.frame (Wifi.with_clients [1%nat; 2%nat] Wifi.boot)))
    by exact zero_grid_binary32.
  assert (H4 : take 4
                 (frame_bytes
                    (Wifi.frame
                       (snd (Wifi.requestSensorData answer_sample
                               (Wifi.with_clients [1%nat; 2%nat] Wifi.boot)))))
               = [x9a; x99; xcd; x41]) by (vm_compute; reflexivity).
  pose proof (publish_on_success answer_sample _ _ H1 H2) as Hpub.
  cbv zeta in Hpub.
  exact (conj H1 (conj H2 (conj H3
           (conj (proj1 (proj2 Hpub))
                 (conj (proj1 (proj2 (proj1 (proj2 (proj2 (proj2 Hpub))) H3)))
                       H4))))).
Defined.
